(** * Shallow embedding of the weather gateway of mcp-servers

    Sources embedded:
    - servers-extra/weather/src/mcp_server_weather/gaode_weather.py
      ([GaodeWeatherAPI.get_weather_live], [GaodeWeatherAPI.get_weather_forecast])
    - servers-extra/weather/src/mcp_server_weather/server.py ([get_city_codes])

    Python values decoded from JSON are modelled by [pyval]; a Python dict is an
    association list in insertion order (keys decoded by [json.loads] are
    distinct strings).  The coroutines run in a small monad [Py] that threads
    the log of outbound HTTP requests and may raise a Python exception. *)

From Stdlib Require Import String List ZArith Bool Lia.
Import ListNotations.
Open Scope string_scope.
Open Scope Z_scope.
#[local] Set Warnings "-register-all".

(** ** Python values *)

Inductive pyval : Type :=
| PNone : pyval
| PBool : bool -> pyval
| PInt : Z -> pyval
| PStr : string -> pyval
| PList : list pyval -> pyval
| PDict : list (string * pyval) -> pyval.

(** [d.get(k)] / [k in d] on an association list. *)
Fixpoint dict_lookup (d : list (string * pyval)) (k : string) : option pyval :=
  match d with
  | [] => None
  | (k', v) :: d' => if String.eqb k k' then Some v else dict_lookup d' k
  end.

(** Python truthiness ([bool(x)]). *)
Definition truthy (v : pyval) : bool :=
  match v with
  | PNone => false
  | PBool b => b
  | PInt z => negb (z =? 0)
  | PStr s => negb (String.eqb s "")
  | PList l => negb (Nat.eqb (List.length l) 0)
  | PDict d => negb (Nat.eqb (List.length d) 0)
  end.

(** ** Exceptions *)

Inductive exc_kind : Type :=
| HTTPError          (* httpx transport faults: ConnectError, TimeoutException, ... *)
| HTTPStatusError    (* raised by [response.raise_for_status()] *)
| JSONDecodeError    (* raised by [response.json()] *)
| AttributeError
| TypeError
| KeyError
| IndexError.

Record exc : Type := mk_exc { exc_class : exc_kind; exc_msg : string }.

(** [str(e)] *)
Definition exc_str (e : exc) : string := exc_msg e.

(** ** HTTP requests and upstream behaviour *)

Record request : Type := mk_request {
  req_method : string;
  req_url : string;
  req_params : list (string * string)
}.

(** The body of a received response, as [response.json()] sees it. *)
Inductive body : Type :=
| Decoded : pyval -> body
| Undecodable : string -> body.

(** What [await client.get(url, params=...)] does for one request. *)
Inductive http_outcome : Type :=
| TransportFault : exc -> http_outcome
| Response : Z -> body -> http_outcome.

(** ** The [Py] monad: request log and exceptions *)

Inductive result (A : Type) : Type :=
| Ret : A -> result A
| Raise : exc -> result A.
Arguments Ret {A} _.
Arguments Raise {A} _.

Definition Py (A : Type) : Type := list request -> list request * result A.

Definition py_ret {A} (a : A) : Py A := fun log => (log, Ret a).
Definition py_raise {A} (e : exc) : Py A := fun log => (log, Raise e).
Definition py_bind {A B} (m : Py A) (k : A -> Py B) : Py B :=
  fun log => match m log with
             | (log', Ret a) => k a log'
             | (log', Raise e) => (log', Raise e)
             end.

(** [try: m except Exception as e: h(e)] *)
Definition py_try {A} (m : Py A) (h : exc -> Py A) : Py A :=
  fun log => match m log with
             | (log', Ret a) => (log', Ret a)
             | (log', Raise e) => h e log'
             end.

Notation "x <- m ;; k" := (py_bind m (fun x => k))
  (at level 61, m at next level, right associativity).
Notation "m ;;; k" := (py_bind m (fun _ => k))
  (at level 61, right associativity).

(** ** Python primitives used by the gateway *)

(** [type(x).__name__] *)
Definition type_name (x : pyval) : string :=
  match x with
  | PNone => "NoneType"
  | PBool _ => "bool"
  | PInt _ => "int"
  | PStr _ => "str"
  | PList _ => "list"
  | PDict _ => "dict"
  end.

(** A Python [str] is held as its UTF-8 encoding.  A byte is a continuation
    byte when it lies in 0x80-0xBF; a leading byte announces how many bytes
    its code point takes. *)
Definition is_continuation (c : Ascii.ascii) : bool :=
  let n := Ascii.nat_of_ascii c in (Nat.leb 128 n && Nat.ltb n 192)%bool.

Definition utf8_width (c : Ascii.ascii) : nat :=
  let n := Ascii.nat_of_ascii c in
  if Nat.ltb n 128 then 1 else if Nat.ltb n 224 then 2 else if Nat.ltb n 240 then 3 else 4.

(** [len(s)]: the number of code points, i.e. of bytes that are not
    continuation bytes; the first byte of a (valid UTF-8) string always
    starts a code point. *)
Fixpoint count_leads (s : string) : nat :=
  match s with
  | EmptyString => 0
  | String c s' => if is_continuation c then count_leads s' else S (count_leads s')
  end.

Definition str_len (s : string) : nat :=
  match s with
  | EmptyString => 0
  | String _ s' => S (count_leads s')
  end.

(** [s[0]] of a non-empty [str]: its first code point. *)
Definition str_first (s : string) : string := substring 0 (match s with
                                                          | String c _ => utf8_width c
                                                          | EmptyString => 0
                                                          end) s.

(** [d.get(k)] *)
Definition py_get (d : pyval) (k : string) : Py pyval :=
  match d with
  | PDict kvs => py_ret (match dict_lookup kvs k with Some v => v | None => PNone end)
  | _ => py_raise (mk_exc AttributeError
                     ("'" ++ type_name d ++ "' object has no attribute 'get'"))
  end.

(** [d[k]] with a string key *)
Definition py_getitem_str (d : pyval) (k : string) : Py pyval :=
  match d with
  | PDict kvs =>
      match dict_lookup kvs k with
      | Some v => py_ret v
      | None => py_raise (mk_exc KeyError ("'" ++ k ++ "'"))
      end
  | PList _ => py_raise (mk_exc TypeError "list indices must be integers or slices, not str")
  | PStr _ => py_raise (mk_exc TypeError "string indices must be integers, not 'str'")
  | _ => py_raise (mk_exc TypeError ("'" ++ type_name d ++ "' object is not subscriptable"))
  end.

(** [x[0]]; on a [str] its first code point; on a dict decoded from JSON
    (string keys) [KeyError(0)]. *)
Definition py_getitem_0 (x : pyval) : Py pyval :=
  match x with
  | PList (v :: _) => py_ret v
  | PList [] => py_raise (mk_exc IndexError "list index out of range")
  | PStr (String c s') => py_ret (PStr (str_first (String c s')))
  | PStr EmptyString => py_raise (mk_exc IndexError "string index out of range")
  | PDict _ => py_raise (mk_exc KeyError "0")
  | _ => py_raise (mk_exc TypeError ("'" ++ type_name x ++ "' object is not subscriptable"))
  end.

(** [len(x)] *)
Definition py_len (x : pyval) : Py Z :=
  match x with
  | PList l => py_ret (Z.of_nat (List.length l))
  | PStr s => py_ret (Z.of_nat (str_len s))
  | PDict d => py_ret (Z.of_nat (List.length d))
  | _ => py_raise (mk_exc TypeError ("object of type '" ++ type_name x ++ "' has no len()"))
  end.

(** [x == "1"] *)
Definition py_eq_str (x : pyval) (s : string) : bool :=
  match x with
  | PStr s' => String.eqb s' s
  | _ => false
  end.

(** ** httpx *)

Section Httpx.
(** The upstream server: what each request leads to. *)
Variable upstream : request -> http_outcome.

(** [await client.get(url, params=params)]: the request is issued (and
    logged) once, then the transport either raises or yields a response. *)
Definition client_get (url : string) (params : list (string * string))
  : Py (Z * body) :=
  fun log =>
    let r := mk_request "GET" url params in
    match upstream r with
    | TransportFault e => ((log ++ [r])%list, Raise e)
    | Response code b => ((log ++ [r])%list, Ret (code, b))
    end.
End Httpx.

(** [response.raise_for_status()]: httpx raises unless the status is 2xx.
    httpx's message names the status, its reason phrase and the request URL;
    it is not reproduced here, only the class of the exception and a fixed
    text. *)
Definition raise_for_status (resp : Z * body) : Py unit :=
  let code := fst resp in
  if (200 <=? code) && (code <? 300) then py_ret tt
  else py_raise (mk_exc HTTPStatusError "HTTP status error").

(** [response.json()] *)
Definition response_json (resp : Z * body) : Py pyval :=
  match snd resp with
  | Decoded v => py_ret v
  | Undecodable m => py_raise (mk_exc JSONDecodeError m)
  end.

(** ** The gateway: [GaodeWeatherAPI] *)

Record GaodeWeatherAPI : Type := mk_api {
  api_key : string;
  base_url : string
}.

Definition AMAP_KEY_DEFAULT : string := "your_amap_key_here".
Definition AMAP_BASE_URL_DEFAULT : string := "https://restapi.amap.com/v3/weather".

(** [__init__]: [self.api_key = api_key or AMAP_KEY], same for the base URL
    ([None] and the empty string are both falsy). *)
Definition py_or (x : option string) (dflt : string) : string :=
  match x with
  | Some s => if String.eqb s "" then dflt else s
  | None => dflt
  end.

Definition GaodeWeatherAPI_init (amap_key amap_base_url : string)
  (api_key base_url : option string) : GaodeWeatherAPI :=
  mk_api (py_or api_key amap_key) (py_or base_url amap_base_url).

Definition MSG_BAD_SHAPE : string := "API返回的数据格式不正确".
Definition MSG_LIVE_FAILED : string := "获取天气数据失败: ".
Definition MSG_FORECAST_FAILED : string := "获取天气预报数据失败: ".

Section Gateway.
Variable upstream : request -> http_outcome.

(** [data.get("status") == "1" and data.get(field) and len(data[field]) > 0] *)
Definition status_ok (data : pyval) (field : string) : Py bool :=
  st <- py_get data "status";;
  if py_eq_str st "1" then
    arr <- py_get data field;;
    if truthy arr then
      arr' <- py_getitem_str data field;;
      n <- py_len arr';;
      py_ret (0 <? n)
    else py_ret false
  else py_ret false.

(** [GaodeWeatherAPI.get_weather_live] (gaode_weather.py, lines 41-75);
    the logging calls are omitted. *)
Definition get_weather_live (self : GaodeWeatherAPI) (city : string) : Py pyval :=
  py_try
    (let params := [("key", api_key self); ("city", city);
                    ("extensions", "base"); ("output", "JSON")] in
     response <- client_get upstream (base_url self ++ "/weatherInfo") params;;
     raise_for_status response ;;;
     data <- response_json response;;
     ok <- status_ok data "lives";;
     if ok then
       lives <- py_getitem_str data "lives";;
       py_getitem_0 lives
     else py_ret (PDict [("error", PStr MSG_BAD_SHAPE); ("raw_response", data)]))
    (fun e => py_ret (PDict [("error", PStr (MSG_LIVE_FAILED ++ exc_str e))])).

(** [GaodeWeatherAPI.get_weather_forecast] (gaode_weather.py, lines 77-111). *)
Definition get_weather_forecast (self : GaodeWeatherAPI) (city : string) : Py pyval :=
  py_try
    (let params := [("key", api_key self); ("city", city);
                    ("extensions", "all"); ("output", "JSON")] in
     response <- client_get upstream (base_url self ++ "/weatherInfo") params;;
     raise_for_status response ;;;
     data <- response_json response;;
     ok <- status_ok data "forecasts";;
     if ok then
       forecasts <- py_getitem_str data "forecasts";;
       py_getitem_0 forecasts
     else py_ret (PDict [("error", PStr MSG_BAD_SHAPE); ("raw_response", data)]))
    (fun e => py_ret (PDict [("error", PStr (MSG_FORECAST_FAILED ++ exc_str e))])).

(** Both methods are instances of one request/parse/normalise cycle. *)
Definition weather_query (ext field fail_prefix : string)
  (self : GaodeWeatherAPI) (city : string) : Py pyval :=
  py_try
    (let params := [("key", api_key self); ("city", city);
                    ("extensions", ext); ("output", "JSON")] in
     response <- client_get upstream (base_url self ++ "/weatherInfo") params;;
     raise_for_status response ;;;
     data <- response_json response;;
     ok <- status_ok data field;;
     if ok then
       arr <- py_getitem_str data field;;
       py_getitem_0 arr
     else py_ret (PDict [("error", PStr MSG_BAD_SHAPE); ("raw_response", data)]))
    (fun e => py_ret (PDict [("error", PStr (fail_prefix ++ exc_str e))])).
End Gateway.

(** The request each method issues. *)
Definition weather_request (self : GaodeWeatherAPI) (city ext : string) : request :=
  mk_request "GET" (base_url self ++ "/weatherInfo")
    [("key", api_key self); ("city", city); ("extensions", ext); ("output", "JSON")].

(** Run a coroutine from an empty request log. *)
Definition run {A} (m : Py A) : list request * result A := m [].

(** ** [get_city_codes] (server.py, lines 64-89) *)

Definition city_codes : list (string * list (string * string)) :=
  [("北京", [("北京", "110000")]);
   ("上海", [("上海", "310000")]);
   ("广东", [("广州", "440100"); ("深圳", "440300"); ("珠海", "440400")]);
   ("江苏", [("南京", "320100"); ("苏州", "320500"); ("无锡", "320200")]);
   ("浙江", [("杭州", "330100"); ("宁波", "330200"); ("温州", "330300")])].

Fixpoint assoc_find {A} (l : list (string * A)) (k : string) : option A :=
  match l with
  | [] => None
  | (k', v) :: l' => if String.eqb k k' then Some v else assoc_find l' k
  end.

(** ["\n"] *)
Definition newline : string := String (Ascii.ascii_of_nat 10) EmptyString.

(** [for city, code in ...items(): result += f"- {city}: {code}\n"] *)
Fixpoint append_entries (acc : string) (entries : list (string * string)) : string :=
  match entries with
  | [] => acc
  | (c, code) :: rest => append_entries (acc ++ "- " ++ c ++ ": " ++ code ++ newline) rest
  end.

(** [sep.join(xs)] *)
Fixpoint py_join (sep : string) (xs : list string) : string :=
  match xs with
  | [] => ""
  | [x] => x
  | x :: rest => x ++ sep ++ py_join sep rest
  end.

Definition get_city_codes (province : string) : string :=
  match assoc_find city_codes province with
  | Some entries => append_entries (province ++ "省主要城市代码:" ++ newline) entries
  | None => "未找到 " ++ province ++ " 的城市代码信息。可用的省份有: "
              ++ py_join ", " (map fst city_codes)
  end.

(** Substrings. *)
Definition substring_of (t s : string) : Prop :=
  exists pre suf, s = pre ++ t ++ suf.

Fixpoint contains (s t : string) : bool :=
  String.prefix t s ||
  match s with
  | EmptyString => false
  | String _ s' => contains s' t
  end.

(** What happens after [client.get] has yielded its outcome: the rest of the
    [try] block of [weather_query] and its [except] handler. *)
Definition handle_response (field fail_prefix : string) (o : http_outcome) : Py pyval :=
  py_try
    (response <- match o with
                 | TransportFault e => py_raise e
                 | Response code b => py_ret (code, b)
                 end;;
     raise_for_status response ;;;
     data <- response_json response;;
     ok <- status_ok data field;;
     if ok then
       arr <- py_getitem_str data field;;
       py_getitem_0 arr
     else py_ret (PDict [("error", PStr MSG_BAD_SHAPE); ("raw_response", data)]))
    (fun e => py_ret (PDict [("error", PStr (fail_prefix ++ exc_str e))])).

(** ** Generic lemmas *)

(** A computation that leaves the request log alone. *)
Definition keeps_log {A} (m : Py A) : Prop := forall log, fst (m log) = log.


Create HintDb pylog.

Lemma keeps_log_ret {A} (a : A) : keeps_log (py_ret a).
Proof. intros log; reflexivity. Qed.

Lemma keeps_log_raise {A} (e : exc) : keeps_log (A := A) (py_raise e).
Proof. intros log; reflexivity. Qed.

Lemma keeps_log_bind {A B} (m : Py A) (k : A -> Py B) :
  keeps_log m -> (forall a, keeps_log (k a)) -> keeps_log (py_bind m k).
Proof.
  intros Hm Hk log; unfold py_bind.
  specialize (Hm log); destruct (m log) as [log' [a | e]]; simpl in *; subst;
    [apply Hk | reflexivity].
Qed.

Lemma keeps_log_try {A} (m : Py A) (h : exc -> Py A) :
  keeps_log m -> (forall e, keeps_log (h e)) -> keeps_log (py_try m h).
Proof.
  intros Hm Hh log; unfold py_try.
  specialize (Hm log); destruct (m log) as [log' [a | e]]; simpl in *; subst;
    [reflexivity | apply Hh].
Qed.

Lemma keeps_log_py_get d k : keeps_log (py_get d k).
Proof. destruct d; intros log; reflexivity. Qed.

Lemma keeps_log_py_getitem_str d k : keeps_log (py_getitem_str d k).
Proof.
  destruct d as [| | | | | kvs]; intros log; try reflexivity.
  simpl; destruct (dict_lookup kvs k); reflexivity.
Qed.

Lemma keeps_log_py_getitem_0 x : keeps_log (py_getitem_0 x).
Proof.
  destruct x as [| | | s | l |]; intros log; try reflexivity.
  - destruct s; reflexivity.
  - destruct l; reflexivity.
Qed.

Lemma keeps_log_py_len x : keeps_log (py_len x).
Proof. destruct x; intros log; reflexivity. Qed.

Lemma keeps_log_raise_for_status r : keeps_log (raise_for_status r).
Proof.
  intros log; unfold raise_for_status.
  destruct ((200 <=? fst r) && (fst r <? 300)); reflexivity.
Qed.

Lemma keeps_log_response_json r : keeps_log (response_json r).
Proof. intros log; unfold response_json; destruct (snd r); reflexivity. Qed.

#[export] Hint Resolve keeps_log_ret keeps_log_raise keeps_log_bind keeps_log_try
  keeps_log_py_get keeps_log_py_getitem_str keeps_log_py_getitem_0 keeps_log_py_len
  keeps_log_raise_for_status keeps_log_response_json : pylog.

Lemma keeps_log_status_ok data field : keeps_log (status_ok data field).
Proof.
  unfold status_ok; apply keeps_log_bind; auto with pylog; intros st.
  destruct (py_eq_str st "1"); auto with pylog; apply keeps_log_bind; auto with pylog.
  intros arr; destruct (truthy arr); auto with pylog.
Qed.

#[export] Hint Resolve keeps_log_status_ok : pylog.

Lemma keeps_log_handle_response field pre o : keeps_log (handle_response field pre o).
Proof.
  unfold handle_response; apply keeps_log_try; auto with pylog.
  apply keeps_log_bind.
  - destruct o; auto with pylog.
  - intros r; apply keeps_log_bind; auto with pylog; intros [].
    apply keeps_log_bind; auto with pylog; intros data.
    apply keeps_log_bind; auto with pylog; intros [|]; auto with pylog.
Qed.



(** The two methods are the generic cycle at their mode flag, array field and
    failure prefix. *)
Lemma get_weather_live_query upstream self city :
  get_weather_live upstream self city
  = weather_query upstream "base" "lives" MSG_LIVE_FAILED self city.
Proof. reflexivity. Qed.

Lemma get_weather_forecast_query upstream self city :
  get_weather_forecast upstream self city
  = weather_query upstream "all" "forecasts" MSG_FORECAST_FAILED self city.
Proof. reflexivity. Qed.

(** One request is issued, then the outcome is handled. *)
Lemma weather_query_unfold upstream ext field pre self city log :
  weather_query upstream ext field pre self city log
  = handle_response field pre (upstream (weather_request self city ext))
      (log ++ [weather_request self city ext])%list.
Proof.
  unfold weather_query, handle_response, py_try, py_bind, client_get, weather_request.
  simpl. destruct (upstream _); reflexivity.
Qed.

Lemma run_weather_query upstream ext field pre self city :
  run (weather_query upstream ext field pre self city)
  = handle_response field pre (upstream (weather_request self city ext))
      [weather_request self city ext].
Proof. unfold run; rewrite weather_query_unfold; reflexivity. Qed.

Lemma is_2xx code : 200 <= code < 300 -> (200 <=? code) && (code <? 300) = true.
Proof. intros H; apply andb_true_intro; split; [apply Z.leb_le | apply Z.ltb_lt]; lia. Qed.

Lemma not_2xx code : ~ (200 <= code < 300) -> (200 <=? code) && (code <? 300) = false.
Proof.
  intros H; destruct (200 <=? code) eqn:E1; destruct (code <? 300) eqn:E2; try reflexivity.
  exfalso; apply H; apply Z.leb_le in E1; apply Z.ltb_lt in E2; lia.
Qed.

Ltac py_unfold :=
  unfold handle_response, py_try, py_bind, py_ret, py_raise, raise_for_status,
    response_json, status_ok, py_get, py_getitem_str, py_len, py_getitem_0; simpl.

(** The record branch of the cycle. *)
Lemma handle_response_record field pre code d x xs log :
  200 <= code < 300 ->
  dict_lookup d "status" = Some (PStr "1") ->
  dict_lookup d field = Some (PList (x :: xs)) ->
  handle_response field pre (Response code (Decoded (PDict d))) log = (log, Ret x).
Proof.
  intros Hc Hs Hf; py_unfold; rewrite (is_2xx _ Hc); simpl.
  rewrite Hs; simpl; rewrite Hf; simpl; reflexivity.
Qed.

(** The shape-failure branch of the cycle: the body is an object whose status
    is not ["1"] or whose array is missing or falsy. *)
Lemma handle_response_shape field pre code d log :
  200 <= code < 300 ->
  ~ (dict_lookup d "status" = Some (PStr "1")
     /\ truthy (match dict_lookup d field with Some v => v | None => PNone end) = true) ->
  handle_response field pre (Response code (Decoded (PDict d))) log
  = (log, Ret (PDict [("error", PStr MSG_BAD_SHAPE); ("raw_response", PDict d)])).
Proof.
  intros Hc Hn; py_unfold; rewrite (is_2xx _ Hc); simpl.
  destruct (dict_lookup d "status") as [st|] eqn:Hs; py_unfold; [|reflexivity].
  destruct (py_eq_str st "1") eqn:Hst; py_unfold; [|reflexivity].
  assert (st = PStr "1") as ->.
  { destruct st; try discriminate; simpl in Hst; apply String.eqb_eq in Hst; subst; reflexivity. }
  destruct (truthy (match dict_lookup d field with Some v => v | None => PNone end)) eqn:Ht.
  - exfalso; apply Hn; split; reflexivity.
  - py_unfold; reflexivity.
Qed.

(** The failure branch: the handler builds a message-only error. *)
Lemma handle_response_fault field pre e log :
  handle_response field pre (TransportFault e) log
  = (log, Ret (PDict [("error", PStr (pre ++ exc_str e))])).
Proof. reflexivity. Qed.

Lemma handle_response_status field pre code b log :
  ~ (200 <= code < 300) ->
  exists cause, handle_response field pre (Response code b) log
                = (log, Ret (PDict [("error", PStr (pre ++ cause))])).
Proof. intros Hc; py_unfold; rewrite (not_2xx _ Hc); simpl; eexists; reflexivity. Qed.

Lemma handle_response_undecodable field pre code m log :
  200 <= code < 300 ->
  handle_response field pre (Response code (Undecodable m)) log
  = (log, Ret (PDict [("error", PStr (pre ++ m))])).
Proof. intros Hc; py_unfold; rewrite (is_2xx _ Hc); reflexivity. Qed.

Lemma handle_response_not_object field pre code v log :
  200 <= code < 300 ->
  (forall d, v <> PDict d) ->
  exists cause, handle_response field pre (Response code (Decoded v)) log
                = (log, Ret (PDict [("error", PStr (pre ++ cause))])).
Proof.
  intros Hc Hv; py_unfold; rewrite (is_2xx _ Hc); simpl.
  destruct v as [| | | | | d]; try (eexists; reflexivity).
  exfalso; exact (Hv d eq_refl).
Qed.

(** ** Fixtures (test_gaode_weather.py) *)

Definition test_api : GaodeWeatherAPI := mk_api "test_key" "https://test.example.com/v3/weather".

Definition beijing_live : pyval :=
  PDict [("province", PStr "北京"); ("city", PStr "北京市"); ("adcode", PStr "110000");
         ("weather", PStr "晴"); ("temperature", PStr "25"); ("winddirection", PStr "西");
         ("windpower", PStr "4"); ("humidity", PStr "30");
         ("reporttime", PStr "2025-04-01 15:00:00")].

Definition live_body_fields : list (string * pyval) :=
  [("status", PStr "1"); ("count", PStr "1"); ("info", PStr "OK");
   ("lives", PList [beijing_live])].

Definition invalid_key_fields : list (string * pyval) :=
  [("status", PStr "0"); ("info", PStr "INVALID_KEY"); ("infocode", PStr "10001")].

Definition cast_0401 : pyval :=
  PDict [("date", PStr "2025-04-01"); ("week", PStr "2"); ("dayweather", PStr "晴");
         ("nightweather", PStr "多云"); ("daytemp", PStr "28"); ("nighttemp", PStr "15");
         ("daywind", PStr "西"); ("nightwind", PStr "西"); ("daypower", PStr "4");
         ("nightpower", PStr "3")].

Definition cast_0402 : pyval :=
  PDict [("date", PStr "2025-04-02"); ("week", PStr "3"); ("dayweather", PStr "多云");
         ("nightweather", PStr "小雨"); ("daytemp", PStr "25"); ("nighttemp", PStr "14");
         ("daywind", PStr "南"); ("nightwind", PStr "南"); ("daypower", PStr "3");
         ("nightpower", PStr "3")].

Definition beijing_forecast_fields : list (string * pyval) :=
  [("city", PStr "北京市"); ("adcode", PStr "110000"); ("province", PStr "北京");
   ("reporttime", PStr "2025-04-01 15:00:00");
   ("casts", PList [cast_0401; cast_0402])].

Definition forecast_body_fields (status : string) : list (string * pyval) :=
  [("status", PStr status); ("count", PStr "1"); ("info", PStr "OK");
   ("forecasts", PList [PDict beijing_forecast_fields])].

(** An upstream that answers every request with the same outcome. *)
Definition answer (o : http_outcome) : request -> http_outcome := fun _ => o.

Example live_success_example :
  run (get_weather_live (answer (Response 200 (Decoded (PDict live_body_fields))))
         test_api "110000")
  = ([mk_request "GET" "https://test.example.com/v3/weather/weatherInfo"
        [("key", "test_key"); ("city", "110000"); ("extensions", "base");
         ("output", "JSON")]],
     Ret beijing_live).
Proof. reflexivity. Qed.

Example live_error_example :
  snd (run (get_weather_live (answer (Response 200 (Decoded (PDict invalid_key_fields))))
              test_api "110000"))
  = Ret (PDict [("error", PStr "API返回的数据格式不正确");
                ("raw_response", PDict invalid_key_fields)]).
Proof. reflexivity. Qed.

Example live_http_error_example :
  snd (run (get_weather_live (answer (TransportFault (mk_exc HTTPError "网络连接错误")))
              test_api "110000"))
  = Ret (PDict [("error", PStr "获取天气数据失败: 网络连接错误")]).
Proof. reflexivity. Qed.

Example forecast_success_example :
  snd (run (get_weather_forecast
              (answer (Response 200 (Decoded (PDict (forecast_body_fields "1")))))
              test_api "110000"))
  = Ret (PDict beijing_forecast_fields).
Proof. reflexivity. Qed.

Example city_codes_example :
  get_city_codes "广东" = "广东省主要城市代码:
- 广州: 440100
- 深圳: 440300
- 珠海: 440400
".
Proof. reflexivity. Qed.

Example city_codes_missing_example :
  get_city_codes "西藏" = "未找到 西藏 的城市代码信息。可用的省份有: 北京, 上海, 广东, 江苏, 浙江".
Proof. reflexivity. Qed.

(** ** Claims *)

(** C1: for a 2xx upstream response whose decoded body has status ["1"] and a
    non-empty [lives] array, [get_weather_live] returns exactly the first
    element of the array, unchanged (no field is converted). *)
Theorem get_weather_live_first_record upstream self city code d x xs :
  upstream (weather_request self city "base") = Response code (Decoded (PDict d)) ->
  200 <= code < 300 ->
  dict_lookup d "status" = Some (PStr "1") ->
  dict_lookup d "lives" = Some (PList (x :: xs)) ->
  snd (run (get_weather_live upstream self city)) = Ret x.
Proof.
  intros Hup Hc Hs Hl.
  rewrite get_weather_live_query, run_weather_query, Hup.
  rewrite (handle_response_record _ _ _ _ _ _ _ Hc Hs Hl); reflexivity.
Qed.

Lemma get_weather_live_first_record_witness :
  answer (Response 200 (Decoded (PDict live_body_fields)))
    (weather_request test_api "110000" "base")
    = Response 200 (Decoded (PDict live_body_fields))
  /\ 200 <= 200 < 300
  /\ dict_lookup live_body_fields "status" = Some (PStr "1")
  /\ dict_lookup live_body_fields "lives" = Some (PList [beijing_live])
  /\ snd (run (get_weather_live (answer (Response 200 (Decoded (PDict live_body_fields))))
                test_api "110000")) = Ret beijing_live.
Proof.
  split; [reflexivity|]; split; [lia|]; split; [reflexivity|]; split; [reflexivity|].
  apply (get_weather_live_first_record _ test_api "110000" 200 live_body_fields
           beijing_live []); (reflexivity || lia).
Defined.

(** C2: for a decoded (2xx) upstream body whose status is not ["1"], or whose
    status is ["1"] but whose [lives] array is missing or empty,
    [get_weather_live] returns the same shape-failure error, whose
    [raw_response] is the full decoded body. *)
Theorem get_weather_live_raw_response upstream self city code d :
  upstream (weather_request self city "base") = Response code (Decoded (PDict d)) ->
  200 <= code < 300 ->
  (dict_lookup d "status" <> Some (PStr "1")
   \/ (dict_lookup d "status" = Some (PStr "1")
       /\ (dict_lookup d "lives" = None \/ dict_lookup d "lives" = Some (PList [])))) ->
  snd (run (get_weather_live upstream self city))
  = Ret (PDict [("error", PStr MSG_BAD_SHAPE); ("raw_response", PDict d)]).
Proof.
  intros Hup Hc Hd.
  rewrite get_weather_live_query, run_weather_query, Hup.
  rewrite handle_response_shape; [reflexivity | exact Hc |].
  intros [Hs Ht]; destruct Hd as [Hn | [_ [Hl | Hl]]].
  - exact (Hn Hs).
  - rewrite Hl in Ht; discriminate.
  - rewrite Hl in Ht; discriminate.
Qed.

Lemma get_weather_live_raw_response_witness :
  answer (Response 200 (Decoded (PDict invalid_key_fields)))
    (weather_request test_api "110000" "base")
    = Response 200 (Decoded (PDict invalid_key_fields))
  /\ 200 <= 200 < 300
  /\ dict_lookup invalid_key_fields "status" <> Some (PStr "1")
  /\ snd (run (get_weather_live (answer (Response 200 (Decoded (PDict invalid_key_fields))))
                test_api "110000"))
     = Ret (PDict [("error", PStr MSG_BAD_SHAPE); ("raw_response", PDict invalid_key_fields)]).
Proof.
  split; [reflexivity|]; split; [lia|]; split; [discriminate|].
  apply (get_weather_live_raw_response _ test_api "110000" 200 invalid_key_fields);
    [reflexivity | lia | left; discriminate].
Defined.


(** C7: each call issues exactly one request, a GET to [{base_url}/weatherInfo]
    with the parameters key, city, extensions (["base"] for live, ["all"] for
    forecast) and output ["JSON"]; there is no retry. *)
Theorem gateway_single_request upstream self city :
  fst (run (get_weather_live upstream self city))
  = [mk_request "GET" (base_url self ++ "/weatherInfo")
       [("key", api_key self); ("city", city); ("extensions", "base"); ("output", "JSON")]]
  /\ fst (run (get_weather_forecast upstream self city))
  = [mk_request "GET" (base_url self ++ "/weatherInfo")
       [("key", api_key self); ("city", city); ("extensions", "all"); ("output", "JSON")]].
Proof.
  split.
  - rewrite get_weather_live_query, run_weather_query; apply keeps_log_handle_response.
  - rewrite get_weather_forecast_query, run_weather_query; apply keeps_log_handle_response.
Qed.

(** C4 (as stated, without the status guard) fails: a 2xx body with status
    ["0"] and a non-empty [forecasts] array whose first group has two casts
    yields the shape-failure error, which has no [casts]. *)
Lemma get_weather_forecast_casts_counterexample :
  dict_lookup (forecast_body_fields "0") "forecasts"
    = Some (PList [PDict beijing_forecast_fields])
  /\ dict_lookup beijing_forecast_fields "casts" = Some (PList [cast_0401; cast_0402])
  /\ ~ (exists kvs,
          snd (run (get_weather_forecast
                      (answer (Response 200 (Decoded (PDict (forecast_body_fields "0")))))
                      test_api "110000")) = Ret (PDict kvs)
          /\ dict_lookup kvs "casts" = Some (PList [cast_0401; cast_0402])).
Proof.
  split; [reflexivity|]; split; [reflexivity|].
  intros [kvs [H1 H2]]; vm_compute in H1; injection H1 as <-.
  vm_compute in H2; discriminate.
Qed.

(** C4 (amended): for a 2xx upstream body with status ["1"] whose [forecasts]
    array is non-empty, [get_weather_forecast] returns the first forecast group
    itself, unchanged, so its [casts] sequence is the upstream one: same entries,
    same number, same order.  When the status is not ["1"], it returns the
    shape-failure error carrying the body as [raw_response]. *)
Theorem get_weather_forecast_casts upstream self city code d :
  upstream (weather_request self city "all") = Response code (Decoded (PDict d)) ->
  200 <= code < 300 ->
  (forall kvs gs ds,
     dict_lookup d "status" = Some (PStr "1") ->
     dict_lookup d "forecasts" = Some (PList (PDict kvs :: gs)) ->
     dict_lookup kvs "casts" = Some (PList ds) ->
     snd (run (get_weather_forecast upstream self city)) = Ret (PDict kvs)
     /\ dict_lookup kvs "casts" = Some (PList ds))
  /\ (dict_lookup d "status" <> Some (PStr "1") ->
      snd (run (get_weather_forecast upstream self city))
      = Ret (PDict [("error", PStr MSG_BAD_SHAPE); ("raw_response", PDict d)])).
Proof.
  intros Hup Hc; rewrite get_weather_forecast_query, run_weather_query, Hup; split.
  - intros kvs gs ds Hs Hf Hcasts; split; [|exact Hcasts].
    rewrite (handle_response_record _ _ _ _ _ _ _ Hc Hs Hf); reflexivity.
  - intros Hs; rewrite handle_response_shape; [reflexivity | exact Hc |].
    intros [H _]; exact (Hs H).
Qed.

Lemma get_weather_forecast_casts_witness :
  (snd (run (get_weather_forecast
               (answer (Response 200 (Decoded (PDict (forecast_body_fields "1")))))
               test_api "110000")) = Ret (PDict beijing_forecast_fields)
   /\ dict_lookup beijing_forecast_fields "casts" = Some (PList [cast_0401; cast_0402]))
  /\ snd (run (get_weather_forecast
                (answer (Response 200 (Decoded (PDict (forecast_body_fields "0")))))
                test_api "110000"))
     = Ret (PDict [("error", PStr MSG_BAD_SHAPE);
                   ("raw_response", PDict (forecast_body_fields "0"))]).
Proof.
  split.
  - apply (proj1 (get_weather_forecast_casts _ test_api "110000" 200 (forecast_body_fields "1")
                    eq_refl ltac:(lia)) beijing_forecast_fields []); reflexivity.
  - apply (proj2 (get_weather_forecast_casts _ test_api "110000" 200 (forecast_body_fields "0")
                    eq_refl ltac:(lia))); discriminate.
Defined.

(** What a call can return, by the outcome [o] of its request: the element
    [data[field][0]] of the decoded body, passed through as it is; the
    shape-failure error with the body as [raw_response]; or an error carrying
    only a message with the method's failure prefix. *)
Definition gateway_result_shape (field pre : string) (o : http_outcome) (v : pyval) : Prop :=
  (exists code d arr, o = Response code (Decoded (PDict d))
                      /\ dict_lookup d field = Some arr
                      /\ snd (py_getitem_0 arr []) = Ret v)
  \/ (exists raw, v = PDict [("error", PStr MSG_BAD_SHAPE); ("raw_response", raw)])
  \/ (exists m, v = PDict [("error", PStr (pre ++ m))]).

(** The branch where status is ["1"] and [data[field]] is truthy: [len] and
    [[0]] are applied to it. *)
Lemma handle_response_truthy field pre code d arr log :
  200 <= code < 300 ->
  dict_lookup d "status" = Some (PStr "1") ->
  dict_lookup d field = Some arr ->
  truthy arr = true ->
  snd (handle_response field pre (Response code (Decoded (PDict d))) log)
  = match arr with
    | PNone | PBool _ | PInt _ =>
        Ret (PDict [("error", PStr (pre ++ "object of type '" ++ type_name arr ++ "' has no len()"))])
    | _ => match snd (py_getitem_0 arr []) with
           | Ret v => Ret v
           | Raise e => Ret (PDict [("error", PStr (pre ++ exc_str e))])
           end
    end.
Proof.
  intros Hc Hs Hf Ht.
  destruct arr as [| | | s | l | kvs]; simpl in Ht; try discriminate;
    [destruct b | idtac | destruct s | destruct l | destruct kvs]; try discriminate;
    py_unfold; rewrite (is_2xx _ Hc); py_unfold; rewrite Hs; py_unfold; rewrite Hf;
    py_unfold; try rewrite Ht; reflexivity.
Qed.

Lemma handle_response_shape_cases field pre o log :
  exists v, snd (handle_response field pre o log) = Ret v
            /\ gateway_result_shape field pre o v.
Proof.
  unfold gateway_result_shape.
  destruct o as [e | code b].
  { rewrite handle_response_fault; eexists; split; [reflexivity|].
    right; right; eexists; reflexivity. }
  destruct (Z_le_gt_dec 200 code) as [H1|H1]; [destruct (Z_lt_ge_dec code 300) as [H2|H2]|].
  2,3: destruct (handle_response_status field pre code b log) as [m Hm]; [lia|];
       rewrite Hm; eexists; split; [reflexivity | right; right; eexists; reflexivity].
  assert (Hc : 200 <= code < 300) by lia.
  destruct b as [v | m].
  2: { rewrite (handle_response_undecodable _ _ _ _ _ Hc); eexists; split; [reflexivity|].
       right; right; eexists; reflexivity. }
  destruct v as [| | | | | d].
  1-5: lazymatch goal with |- context [Decoded ?v] =>
         destruct (handle_response_not_object field pre code v log Hc) as [m Hm] end;
       [intros d' Hd'; discriminate | rewrite Hm; eexists; split;
                                     [reflexivity | right; right; eexists; reflexivity]].
  assert (Hshape : ~ (dict_lookup d "status" = Some (PStr "1")
                       /\ truthy (match dict_lookup d field with
                                  | Some v => v | None => PNone end) = true) ->
                   exists v, snd (handle_response field pre
                                    (Response code (Decoded (PDict d))) log) = Ret v
                   /\ ((exists code' d' arr, Response code (Decoded (PDict d))
                                              = Response code' (Decoded (PDict d'))
                                           /\ dict_lookup d' field = Some arr
                                           /\ snd (py_getitem_0 arr []) = Ret v)
                       \/ (exists raw, v = PDict [("error", PStr MSG_BAD_SHAPE);
                                                  ("raw_response", raw)])
                       \/ (exists m, v = PDict [("error", PStr (pre ++ m))]))).
  { intros Hn; rewrite (handle_response_shape _ _ _ _ _ Hc Hn); eexists; split;
      [reflexivity | right; left; eexists; reflexivity]. }
  destruct (dict_lookup d "status") as [st|] eqn:Hs;
    [|apply Hshape; intros [H _]; discriminate].
  destruct (py_eq_str st "1") eqn:Hst;
    [|apply Hshape; intros [H _]; injection H as ->; discriminate].
  assert (st = PStr "1") as ->.
  { destruct st; try discriminate; simpl in Hst; apply String.eqb_eq in Hst; subst; reflexivity. }
  destruct (dict_lookup d field) as [arr|] eqn:Hf;
    [|apply Hshape; intros [_ H]; discriminate].
  destruct (truthy arr) eqn:Ht;
    [|apply Hshape; intros [_ H]; congruence].
  rewrite (handle_response_truthy _ _ _ _ _ _ Hc Hs Hf Ht).
  assert (Hmsg : forall m, exists v, Ret (PDict [("error", PStr (pre ++ m))]) = Ret v
            /\ ((exists code' d' arr', Response code (Decoded (PDict d))
                                       = Response code' (Decoded (PDict d'))
                                    /\ dict_lookup d' field = Some arr'
                                    /\ snd (py_getitem_0 arr' []) = Ret v)
                \/ (exists raw, v = PDict [("error", PStr MSG_BAD_SHAPE); ("raw_response", raw)])
                \/ (exists m', v = PDict [("error", PStr (pre ++ m'))]))).
  { intros m; eexists; split; [reflexivity | right; right; eexists; reflexivity]. }
  destruct arr as [| | | s' | l | kvs]; try apply Hmsg.
  all: destruct (snd (py_getitem_0 _ [])) as [v|e] eqn:Hg; try apply Hmsg.
  all: exists v; split; [reflexivity|]; left; do 3 eexists.
  all: split; [reflexivity | split; eassumption].
Qed.

(** C5 (as stated) fails: the record branch passes the upstream element
    through as it is, so a record carrying an ["error"] key comes back with
    both the error discriminant and weather fields. *)
Definition mixed_record : pyval := PDict [("error", PStr "x"); ("city", PStr "北京市")].

Lemma gateway_result_mixed_counterexample :
  exists kvs,
    snd (run (get_weather_live
                (answer (Response 200 (Decoded (PDict [("status", PStr "1");
                                                      ("lives", PList [mixed_record])]))))
                test_api "110000")) = Ret (PDict kvs)
    /\ dict_lookup kvs "error" <> None
    /\ dict_lookup kvs "city" <> None.
Proof.
  eexists; split; [vm_compute; reflexivity|]; split; vm_compute; discriminate.
Qed.

(** C5 (amended): every call returns exactly one of: the element
    [data[field][0]] of the decoded body, passed through unchanged (it may
    itself hold any keys, ["error"] included); the shape-failure error
    [{error, raw_response}]; or the message-only error [{error}]. *)
Theorem gateway_result_one_branch upstream self city :
  (exists v, snd (run (get_weather_live upstream self city)) = Ret v
             /\ gateway_result_shape "lives" MSG_LIVE_FAILED
                  (upstream (weather_request self city "base")) v)
  /\ (exists v, snd (run (get_weather_forecast upstream self city)) = Ret v
                /\ gateway_result_shape "forecasts" MSG_FORECAST_FAILED
                     (upstream (weather_request self city "all")) v).
Proof.
  split.
  - rewrite get_weather_live_query, run_weather_query; apply handle_response_shape_cases.
  - rewrite get_weather_forecast_query, run_weather_query; apply handle_response_shape_cases.
Qed.

(** Transport-level failures: the client raises, or the status is not 2xx. *)
Definition transport_failure (o : http_outcome) : Prop :=
  (exists e, o = TransportFault e)
  \/ (exists code b, o = Response code b /\ ~ (200 <= code < 300)).

(** C6 (as stated) fails: on a refused connection the live message is
    ["获取天气数据失败: ..."], not ["failed to fetch live weather: ..."], and it
    does not contain ["live"]; the forecast one does not contain ["forecast"]. *)
Lemma gateway_failure_message_counterexample :
  let o := TransportFault (mk_exc HTTPError "Connection refused") in
  snd (run (get_weather_live (answer o) test_api "110000"))
    = Ret (PDict [("error", PStr "获取天气数据失败: Connection refused")])
  /\ ~ (exists cause, snd (run (get_weather_live (answer o) test_api "110000"))
                      = Ret (PDict [("error", PStr ("failed to fetch live weather: " ++ cause))]))
  /\ contains "获取天气数据失败: Connection refused" "live" = false
  /\ snd (run (get_weather_forecast (answer o) test_api "110000"))
    = Ret (PDict [("error", PStr "获取天气预报数据失败: Connection refused")])
  /\ contains "获取天气预报数据失败: Connection refused" "forecast" = false.
Proof.
  intros o; split; [reflexivity|]; split.
  - intros [cause H]; vm_compute in H; inversion H.
  - split; [vm_compute; reflexivity|]; split; [reflexivity | vm_compute; reflexivity].
Qed.

(** C6 (amended): on a transport-level failure, [get_weather_live] returns the
    message-only error ["获取天气数据失败: " ++ cause] and [get_weather_forecast]
    the message-only error ["获取天气预报数据失败: " ++ cause]; for a raised
    transport exception the cause is [str(e)].  The two fixed prefixes contain
    neither ["live"] nor ["forecast"]. *)
Theorem gateway_transport_failure_message upstream self city :
  (contains MSG_LIVE_FAILED "live" = false /\ contains MSG_LIVE_FAILED "forecast" = false
   /\ contains MSG_FORECAST_FAILED "live" = false
   /\ contains MSG_FORECAST_FAILED "forecast" = false) /\
  (transport_failure (upstream (weather_request self city "base")) ->
   exists cause, snd (run (get_weather_live upstream self city))
                 = Ret (PDict [("error", PStr (MSG_LIVE_FAILED ++ cause))])
     /\ (forall e, upstream (weather_request self city "base") = TransportFault e ->
                   cause = exc_str e))
  /\ (transport_failure (upstream (weather_request self city "all")) ->
   exists cause, snd (run (get_weather_forecast upstream self city))
                 = Ret (PDict [("error", PStr (MSG_FORECAST_FAILED ++ cause))])
     /\ (forall e, upstream (weather_request self city "all") = TransportFault e ->
                   cause = exc_str e)).
Proof.
  split; [vm_compute; repeat split|].
  split; intros [[e He] | [code [b [Hb Hc]]]].
  all: first [ rewrite get_weather_live_query | rewrite get_weather_forecast_query ].
  all: rewrite run_weather_query.
  1,3: rewrite He, handle_response_fault; exists (exc_str e); split; [reflexivity|];
       intros e' He'; injection He' as ->; reflexivity.
  all: rewrite Hb;
       lazymatch goal with |- context [handle_response ?f ?p _ ?l] =>
         destruct (handle_response_status f p code b l Hc) as [m Hm] end;
       rewrite Hm; exists m; split; [reflexivity | intros e' He'; discriminate].
Qed.

Lemma gateway_transport_failure_message_witness :
  let up := answer (TransportFault (mk_exc HTTPError "Connection refused")) in
  transport_failure (up (weather_request test_api "110000" "base"))
  /\ exists cause, snd (run (get_weather_live up test_api "110000"))
                   = Ret (PDict [("error", PStr (MSG_LIVE_FAILED ++ cause))])
     /\ (forall e, up (weather_request test_api "110000" "base") = TransportFault e ->
                   cause = exc_str e).
Proof.
  intros up; split; [left; eexists; reflexivity|].
  apply (proj1 (proj2 (gateway_transport_failure_message up test_api "110000"))).
  left; eexists; reflexivity.
Defined.

(** ** The result does not depend on the request log *)

Definition log_indep {A} (m : Py A) : Prop := forall l1 l2, snd (m l1) = snd (m l2).

Lemma log_indep_ret {A} (a : A) : log_indep (py_ret a).
Proof. intros l1 l2; reflexivity. Qed.

Lemma log_indep_raise {A} (e : exc) : log_indep (A := A) (py_raise e).
Proof. intros l1 l2; reflexivity. Qed.

Lemma log_indep_bind {A B} (m : Py A) (k : A -> Py B) :
  log_indep m -> (forall a, log_indep (k a)) -> log_indep (py_bind m k).
Proof.
  intros Hm Hk l1 l2; unfold py_bind; specialize (Hm l1 l2).
  destruct (m l1) as [l1' [a1 | e1]], (m l2) as [l2' [a2 | e2]]; simpl in Hm;
    try discriminate; [injection Hm as <-; apply Hk | injection Hm as <-; reflexivity].
Qed.

Lemma log_indep_try {A} (m : Py A) (h : exc -> Py A) :
  log_indep m -> (forall e, log_indep (h e)) -> log_indep (py_try m h).
Proof.
  intros Hm Hh l1 l2; unfold py_try; specialize (Hm l1 l2).
  destruct (m l1) as [l1' [a1 | e1]], (m l2) as [l2' [a2 | e2]]; simpl in Hm;
    try discriminate; [injection Hm as <-; reflexivity | injection Hm as <-; apply Hh].
Qed.

Lemma log_indep_prim_get d k : log_indep (py_get d k).
Proof. destruct d; intros l1 l2; reflexivity. Qed.

Lemma log_indep_prim_getitem_str d k : log_indep (py_getitem_str d k).
Proof.
  destruct d as [| | | | | kvs]; intros l1 l2; try reflexivity.
  simpl; destruct (dict_lookup kvs k); reflexivity.
Qed.

Lemma log_indep_prim_getitem_0 x : log_indep (py_getitem_0 x).
Proof.
  destruct x as [| | | s | l |]; intros l1 l2; try reflexivity.
  - destruct s; reflexivity.
  - destruct l; reflexivity.
Qed.

Lemma log_indep_prim_len x : log_indep (py_len x).
Proof. destruct x; intros l1 l2; reflexivity. Qed.

Lemma log_indep_prim_raise_for_status r : log_indep (raise_for_status r).
Proof.
  intros l1 l2; unfold raise_for_status.
  destruct ((200 <=? fst r) && (fst r <? 300)); reflexivity.
Qed.

Lemma log_indep_prim_response_json r : log_indep (response_json r).
Proof. intros l1 l2; unfold response_json; destruct (snd r); reflexivity. Qed.

#[export] Hint Resolve log_indep_ret log_indep_raise log_indep_bind log_indep_try
  log_indep_prim_get log_indep_prim_getitem_str log_indep_prim_getitem_0 log_indep_prim_len
  log_indep_prim_raise_for_status log_indep_prim_response_json : pylog.

Lemma log_indep_handle_response field pre o : log_indep (handle_response field pre o).
Proof.
  unfold handle_response; apply log_indep_try; auto with pylog.
  apply log_indep_bind; [destruct o; auto with pylog|]; intros r.
  apply log_indep_bind; auto with pylog; intros [].
  apply log_indep_bind; auto with pylog; intros data.
  apply log_indep_bind.
  - unfold status_ok; apply log_indep_bind; auto with pylog; intros st.
    destruct (py_eq_str st "1"); auto with pylog.
    apply log_indep_bind; auto with pylog; intros arr; destruct (truthy arr); auto with pylog.
  - intros [|]; auto with pylog.
Qed.

(** C8 (as stated) fails: there is no local non-emptiness check; the empty
    city code is sent upstream like any other. *)
Lemma city_code_empty_counterexample :
  fst (run (get_weather_live (answer (Response 200 (Decoded (PDict invalid_key_fields))))
              test_api ""))
  = [mk_request "GET" "https://test.example.com/v3/weather/weatherInfo"
       [("key", "test_key"); ("city", ""); ("extensions", "base"); ("output", "JSON")]]
  /\ fst (run (get_weather_live (answer (Response 200 (Decoded (PDict invalid_key_fields))))
                 test_api "")) <> [].
Proof. split; [reflexivity | discriminate]. Qed.

(** C8 (amended): no city code, the empty one included, is checked locally:
    each is sent unchanged as the [city] parameter of the one request, and the
    result is a function of the upstream's answer to that request only. *)
Theorem city_code_forwarded upstream self city :
  fst (run (get_weather_live upstream self city)) = [weather_request self city "base"]
  /\ req_params (weather_request self city "base")
     = [("key", api_key self); ("city", city); ("extensions", "base"); ("output", "JSON")]
  /\ snd (run (get_weather_live upstream self city))
     = snd (handle_response "lives" MSG_LIVE_FAILED
              (upstream (weather_request self city "base")) [])
  /\ fst (run (get_weather_forecast upstream self city)) = [weather_request self city "all"]
  /\ req_params (weather_request self city "all")
     = [("key", api_key self); ("city", city); ("extensions", "all"); ("output", "JSON")]
  /\ snd (run (get_weather_forecast upstream self city))
     = snd (handle_response "forecasts" MSG_FORECAST_FAILED
              (upstream (weather_request self city "all")) []).
Proof.
  rewrite get_weather_live_query, get_weather_forecast_query, !run_weather_query.
  split; [apply keeps_log_handle_response|]; split; [reflexivity|].
  split; [apply log_indep_handle_response|].
  split; [apply keeps_log_handle_response|]; split; [reflexivity|].
  apply log_indep_handle_response.
Qed.

(** ** [get_city_codes] *)

Lemma str_app_assoc (a b c : string) : (a ++ b) ++ c = a ++ b ++ c.
Proof. induction a as [|ch a IH]; simpl; [reflexivity | rewrite IH; reflexivity]. Qed.

Lemma str_app_nil_r (a : string) : a ++ "" = a.
Proof. induction a as [|ch a IH]; simpl; [reflexivity | rewrite IH; reflexivity]. Qed.

Lemma append_entries_extends acc entries :
  exists t, append_entries acc entries = acc ++ t.
Proof.
  revert acc; induction entries as [|[c code] rest IH]; intros acc;
    cbn [append_entries].
  - exists ""; rewrite str_app_nil_r; reflexivity.
  - destruct (IH (acc ++ "- " ++ c ++ ": " ++ code ++ newline)) as [t Ht].
    rewrite Ht, str_app_assoc; eexists; reflexivity.
Qed.

Lemma append_entries_lists acc entries c code :
  In (c, code) entries ->
  substring_of ("- " ++ c ++ ": " ++ code ++ newline) (append_entries acc entries).
Proof.
  revert acc; induction entries as [|[c' code'] rest IH]; intros acc Hin;
    cbn [append_entries In] in *.
  - contradiction.
  - destruct Hin as [Heq | Hin].
    + injection Heq as -> ->.
      destruct (append_entries_extends (acc ++ "- " ++ c ++ ": " ++ code ++ newline) rest)
        as [t Ht].
      exists acc, t; rewrite Ht, str_app_assoc; reflexivity.
    + apply IH; exact Hin.
Qed.

Lemma py_join_lists sep xs p :
  In p xs -> substring_of p (py_join sep xs).
Proof.
  induction xs as [|x rest IH]; intros Hin; simpl in Hin.
  - contradiction.
  - destruct Hin as [<- | Hin].
    + destruct rest as [|y rest'].
      * exists "", ""; simpl; rewrite str_app_nil_r; reflexivity.
      * exists "", (sep ++ py_join sep (y :: rest')); reflexivity.
    + destruct rest as [|y rest']; [contradiction|].
      destruct (IH Hin) as [pre [suf Hs]].
      exists (x ++ sep ++ pre), suf.
      change (py_join sep (x :: y :: rest')) with (x ++ sep ++ py_join sep (y :: rest')).
      rewrite Hs, !str_app_assoc; reflexivity.
Qed.

(** C9: for a province of the hardcoded table, the [city_codes://{province}]
    resource lists every city of that province with its code (one
    ["- {city}: {code}"] line each); for any other province it lists every
    province of the table. *)
Theorem get_city_codes_listing province :
  (forall entries, assoc_find city_codes province = Some entries ->
     forall c code, In (c, code) entries ->
       substring_of ("- " ++ c ++ ": " ++ code ++ newline) (get_city_codes province))
  /\ (assoc_find city_codes province = None ->
      forall p, In p (map fst city_codes) -> substring_of p (get_city_codes province)).
Proof.
  split.
  - intros entries Hf c code Hin; unfold get_city_codes; rewrite Hf.
    apply append_entries_lists; exact Hin.
  - intros Hf p Hin; unfold get_city_codes; rewrite Hf.
    destruct (py_join_lists ", " (map fst city_codes) p Hin) as [pre [suf Hs]].
    rewrite Hs.
    exists ("未找到 " ++ province ++ " 的城市代码信息。可用的省份有: " ++ pre), suf.
    rewrite !str_app_assoc; reflexivity.
Qed.

Lemma get_city_codes_listing_witness :
  assoc_find city_codes "广东"
    = Some [("广州", "440100"); ("深圳", "440300"); ("珠海", "440400")]
  /\ substring_of ("- " ++ "深圳" ++ ": " ++ "440300" ++ newline) (get_city_codes "广东")
  /\ assoc_find city_codes "西藏" = None
  /\ substring_of "浙江" (get_city_codes "西藏").
Proof.
  split; [reflexivity|]; split.
  - apply (proj1 (get_city_codes_listing "广东")
             [("广州", "440100"); ("深圳", "440300"); ("珠海", "440400")]);
      [reflexivity | simpl; auto].
  - split; [reflexivity|].
    apply (proj2 (get_city_codes_listing "西藏")); [reflexivity | simpl; auto 6].
Defined.

(** ** When an error carries [raw_response] *)

(** Failures whose error carries only a message: transport-level failures,
    undecodable bodies, and decoded bodies that are not JSON objects. *)
Definition message_only_failure (o : http_outcome) : Prop :=
  transport_failure o
  \/ (exists code m, o = Response code (Undecodable m) /\ 200 <= code < 300)
  \/ (exists code v, o = Response code (Decoded v) /\ 200 <= code < 300
                     /\ forall d, v <> PDict d).

(** [raw_response] is attached exactly for an object body that fails the
    status/array check; the failures above get the message alone. *)
Definition raw_response_contract (field pre : string) (o : http_outcome)
  (res : result pyval) : Prop :=
  (forall code d, o = Response code (Decoded (PDict d)) -> 200 <= code < 300 ->
     ~ (dict_lookup d "status" = Some (PStr "1")
        /\ truthy (match dict_lookup d field with Some v => v | None => PNone end) = true) ->
     res = Ret (PDict [("error", PStr MSG_BAD_SHAPE); ("raw_response", PDict d)]))
  /\ (message_only_failure o ->
      exists m, res = Ret (PDict [("error", PStr (pre ++ m))])).

(** C10 (as stated) fails: a 2xx body that decodes to the JSON array [[]] was
    received and decoded and fails the status check, yet the error carries no
    [raw_response] ([data.get] raises [AttributeError] on a list). *)
Lemma raw_response_non_object_counterexample :
  snd (run (get_weather_live (answer (Response 200 (Decoded (PList [])))) test_api "110000"))
    = Ret (PDict [("error", PStr (MSG_LIVE_FAILED ++ "'list' object has no attribute 'get'"))])
  /\ forall kvs,
       snd (run (get_weather_live (answer (Response 200 (Decoded (PList []))))
                   test_api "110000")) = Ret (PDict kvs) ->
       dict_lookup kvs "raw_response" = None.
Proof.
  split; [reflexivity|].
  intros kvs H; vm_compute in H; injection H as <-; reflexivity.
Qed.

Lemma handle_response_raw_contract field pre o :
  raw_response_contract field pre o (snd (handle_response field pre o [])).
Proof.
  split.
  - intros code d -> Hc Hn; rewrite (handle_response_shape _ _ _ _ _ Hc Hn); reflexivity.
  - intros [[[e ->] | [code [b [-> Hc]]]] | [[code [m [-> Hc]]] | [code [v [-> [Hc Hv]]]]]].
    + rewrite handle_response_fault; eexists; reflexivity.
    + destruct (handle_response_status field pre code b [] Hc) as [m Hm];
        rewrite Hm; eexists; reflexivity.
    + rewrite (handle_response_undecodable _ _ _ _ _ Hc); eexists; reflexivity.
    + destruct (handle_response_not_object field pre code v [] Hc Hv) as [m Hm];
        rewrite Hm; eexists; reflexivity.
Qed.

(** C10 (amended): for both methods, the error carries [raw_response] (the
    decoded body) when a 2xx body decodes to a JSON object whose status is not
    ["1"] or whose array is missing or falsy; on a transport-level failure, an
    undecodable body or a decoded body that is not an object, the error carries
    the message alone. *)
Theorem gateway_raw_response_cases upstream self city :
  raw_response_contract "lives" MSG_LIVE_FAILED
    (upstream (weather_request self city "base"))
    (snd (run (get_weather_live upstream self city)))
  /\ raw_response_contract "forecasts" MSG_FORECAST_FAILED
       (upstream (weather_request self city "all"))
       (snd (run (get_weather_forecast upstream self city))).
Proof.
  rewrite get_weather_live_query, get_weather_forecast_query, !run_weather_query.
  rewrite (log_indep_handle_response "lives" _ _ _ []).
  rewrite (log_indep_handle_response "forecasts" _ _ _ []).
  split; apply handle_response_raw_contract.
Qed.

Lemma gateway_raw_response_cases_witness :
  let up := answer (Response 200 (Decoded (PDict invalid_key_fields))) in
  up (weather_request test_api "110000" "base")
    = Response 200 (Decoded (PDict invalid_key_fields))
  /\ snd (run (get_weather_live up test_api "110000"))
     = Ret (PDict [("error", PStr MSG_BAD_SHAPE); ("raw_response", PDict invalid_key_fields)]).
Proof.
  intros up; split; [reflexivity|].
  apply (proj1 (proj1 (gateway_raw_response_cases up test_api "110000"))
           200 invalid_key_fields); [reflexivity | lia |].
  intros [H _]; discriminate.
Defined.

(** * [SessionFormatMiddleware] (sse_server.py, lines 141-173)

    The middleware works on the query string after [.decode()], i.e. on a
    Python [str]: a sequence of code points, modelled as [list Z].  It hands
    the (possibly rewritten) scope to the wrapped ASGI app; [session_format]
    is the scope that app receives. *)
Module SessionFormat.

Local Open Scope list_scope.

Definition pstr : Type := list Z.

(** A Python [str] literal made of ASCII characters. *)
Fixpoint ustr (s : string) : pstr :=
  match s with
  | EmptyString => []
  | String a s' => Z.of_nat (Ascii.nat_of_ascii a) :: ustr s'
  end.

Definition AMP : Z := 38.    (* "&" *)
Definition EQ : Z := 61.     (* "=" *)
Definition DASH : Z := 45.   (* "-" *)

Definition pstr_eqb (a b : pstr) : bool :=
  if list_eq_dec Z.eq_dec a b then true else false.

(** [c in s] for a one-character [c] *)
Definition mem (c : Z) (s : pstr) : bool := existsb (Z.eqb c) s.

(** [t in s] for a substring [t] *)
Fixpoint prefixb (t s : pstr) : bool :=
  match t, s with
  | [], _ => true
  | x :: t', y :: s' => (x =? y) && prefixb t' s'
  | _ :: _, [] => false
  end.

Fixpoint is_infix (t s : pstr) : bool :=
  prefixb t s || match s with [] => false | _ :: s' => is_infix t s' end.

(** [s.split(c)] for a one-character separator *)
Fixpoint split_on (c : Z) (s : pstr) : list pstr :=
  match s with
  | [] => [[]]
  | x :: s' =>
      let rest := split_on c s' in
      if x =? c then [] :: rest
      else match rest with
           | h :: t => (x :: h) :: t
           | [] => [[x]]
           end
  end.

(** [s.split(c, 1)] when [c in s]: the parts before and after the first [c];
    [None] when [c] does not occur. *)
Fixpoint split_once (c : Z) (s : pstr) : option (pstr * pstr) :=
  match s with
  | [] => None
  | x :: s' =>
      if x =? c then Some ([], s')
      else match split_once c s' with
           | Some (a, b) => Some (x :: a, b)
           | None => None
           end
  end.

(** A dict from [str] to [str], in insertion order. *)
Fixpoint qlookup (d : list (pstr * pstr)) (k : pstr) : option pstr :=
  match d with
  | [] => None
  | (k', v) :: d' => if list_eq_dec Z.eq_dec k k' then Some v else qlookup d' k
  end.

(** [d[k] = v]: an existing key keeps its place. *)
Fixpoint dict_set (d : list (pstr * pstr)) (k v : pstr) : list (pstr * pstr) :=
  match d with
  | [] => [(k, v)]
  | (k', v') :: d' =>
      if list_eq_dec Z.eq_dec k k' then (k', v) :: d' else (k', v') :: dict_set d' k v
  end.

(** [sep.join(xs)] *)
Fixpoint pjoin (sep : pstr) (xs : list pstr) : pstr :=
  match xs with
  | [] => []
  | [x] => x
  | x :: rest => x ++ sep ++ pjoin sep rest
  end.

(** [for param in query_string.split("&"): if "=" in param: key, value =
    param.split("=", 1); query_params[key] = value] *)
Definition parse_query (q : pstr) : list (pstr * pstr) :=
  fold_left (fun qp param =>
               match split_once EQ param with
               | Some (k, v) => dict_set qp k v
               | None => qp
               end)
            (split_on AMP q) [].

(** ["&".join([f"{k}={v}" for k, v in query_params.items()])] *)
Definition render (d : list (pstr * pstr)) : pstr :=
  pjoin [AMP] (map (fun kv => fst kv ++ [EQ] ++ snd kv) d).

(** [session_id[:8] + "-" + session_id[8:12] + "-" + session_id[12:16] + "-"
    + session_id[16:20] + "-" + session_id[20:]] *)
Definition format_session_id (sid : pstr) : pstr :=
  firstn 8 sid ++ [DASH] ++ firstn 4 (skipn 8 sid) ++ [DASH]
  ++ firstn 4 (skipn 12 sid) ++ [DASH] ++ firstn 4 (skipn 16 sid) ++ [DASH]
  ++ skipn 20 sid.

(** The fields of the ASGI scope the middleware reads or writes. *)
Record scope : Type := mk_scope {
  scope_type : pstr;
  scope_path : option pstr;
  scope_query : option pstr
}.

Definition session_format (s : scope) : scope :=
  if pstr_eqb (scope_type s) (ustr "http")
     && is_infix (ustr "/messages/") (match scope_path s with Some p => p | None => [] end)
  then
    let query_params := parse_query (match scope_query s with Some q => q | None => [] end) in
    let session_id := match qlookup query_params (ustr "session_id") with
                      | Some v => v | None => [] end in
    if negb (pstr_eqb session_id []) && negb (mem DASH session_id)
       && Nat.eqb (length session_id) 32
    then
      let formatted_id := format_session_id session_id in
      mk_scope (scope_type s) (scope_path s)
        (Some (render (dict_set query_params (ustr "session_id") formatted_id)))
    else s
  else s.

Example session_format_example :
  session_format (mk_scope (ustr "http") (Some (ustr "/messages/"))
    (Some (ustr "x&session_id=0123456789abcdef0123456789abcdef&a=1=2")))
  = mk_scope (ustr "http") (Some (ustr "/messages/"))
      (Some (ustr "session_id=01234567-89ab-cdef-0123-456789abcdef&a=1=2")).
Proof. vm_compute; reflexivity. Qed.

(** The scope fields the middleware's test reads. *)
Definition messages_request (s : scope) : bool :=
  pstr_eqb (scope_type s) (ustr "http")
  && is_infix (ustr "/messages/") (match scope_path s with Some p => p | None => [] end).

Definition query_of (s : scope) : pstr :=
  match scope_query s with Some q => q | None => [] end.

(** [query_params.get("session_id", "")] *)
Definition query_session_id (s : scope) : pstr :=
  match qlookup (parse_query (query_of s)) (ustr "session_id") with
  | Some v => v
  | None => []
  end.

(** What [parse_query] produces: distinct keys, no ["&"] in keys or values,
    no ["="] in keys. *)
Definition query_wf (d : list (pstr * pstr)) : Prop :=
  NoDup (map fst d)
  /\ Forall (fun kv => ~ In AMP (fst kv) /\ ~ In EQ (fst kv) /\ ~ In AMP (snd kv)) d.

Lemma pstr_eqb_spec a b : pstr_eqb a b = true <-> a = b.
Proof. unfold pstr_eqb; destruct (list_eq_dec Z.eq_dec a b); split; congruence. Qed.

Lemma mem_spec c s : mem c s = true <-> In c s.
Proof.
  unfold mem; rewrite existsb_exists; split.
  - intros [x [Hx E]]; apply Z.eqb_eq in E; subst; exact Hx.
  - intros H; exists c; split; [exact H | apply Z.eqb_refl].
Qed.

Lemma in_firstn_sub {A} (x : A) n l : In x (firstn n l) -> In x l.
Proof. intros H; rewrite <- (firstn_skipn n l); apply in_or_app; left; exact H. Qed.

Lemma in_skipn_sub {A} (x : A) n l : In x (skipn n l) -> In x l.
Proof. intros H; rewrite <- (firstn_skipn n l); apply in_or_app; right; exact H. Qed.

Lemma split_on_none c x : ~ In c x -> split_on c x = [x].
Proof.
  induction x as [|a x IH]; intros H; [reflexivity|].
  simpl; destruct (Z.eqb_spec a c) as [E|E].
  - subst; exfalso; apply H; left; reflexivity.
  - rewrite IH by (intro; apply H; right; assumption); reflexivity.
Qed.

Lemma split_on_app c x y : ~ In c x -> split_on c (x ++ c :: y) = x :: split_on c y.
Proof.
  induction x as [|a x IH]; intros H; simpl.
  - rewrite Z.eqb_refl; reflexivity.
  - destruct (Z.eqb_spec a c) as [E|E].
    + subst; exfalso; apply H; left; reflexivity.
    + rewrite IH by (intro; apply H; right; assumption); reflexivity.
Qed.

Lemma split_on_pjoin c xs :
  xs <> [] -> Forall (fun x => ~ In c x) xs -> split_on c (pjoin [c] xs) = xs.
Proof.
  induction xs as [|x [|y r] IH]; intros Hne Hf; [congruence| |].
  - inversion Hf; subst; simpl; apply split_on_none; assumption.
  - inversion Hf; subst.
    change (pjoin [c] (x :: y :: r)) with (x ++ c :: pjoin [c] (y :: r)).
    rewrite split_on_app by assumption; rewrite IH by (congruence || assumption).
    reflexivity.
Qed.

Lemma split_on_segments c s seg : In seg (split_on c s) -> ~ In c seg.
Proof.
  revert seg; induction s as [|x s IH]; intros seg Hin; simpl in Hin.
  - destruct Hin as [<-|[]]; simpl; tauto.
  - destruct (Z.eqb_spec x c) as [E|E].
    + destruct Hin as [<-|Hin]; [simpl; tauto | apply IH; exact Hin].
    + destruct (split_on c s) as [|h t] eqn:Hs.
      * destruct Hin as [<-|[]]; simpl; intros [H|[]]; congruence.
      * destruct Hin as [<-|Hin].
        -- intros [H|H]; [congruence|]. apply (IH h); [left; reflexivity | exact H].
        -- apply IH; right; exact Hin.
Qed.

Lemma split_once_app c k v : ~ In c k -> split_once c (k ++ c :: v) = Some (k, v).
Proof.
  induction k as [|a k IH]; intros H; simpl.
  - rewrite Z.eqb_refl; reflexivity.
  - destruct (Z.eqb_spec a c) as [E|E].
    + subst; exfalso; apply H; left; reflexivity.
    + rewrite IH by (intro; apply H; right; assumption); reflexivity.
Qed.

Lemma split_once_some c s k v :
  split_once c s = Some (k, v) -> s = k ++ c :: v /\ ~ In c k.
Proof.
  revert k v; induction s as [|x s IH]; intros k v H; simpl in H; [discriminate|].
  destruct (Z.eqb_spec x c) as [E|E].
  - inversion H; subst; simpl; tauto.
  - destruct (split_once c s) as [[a b]|] eqn:Hs; [|discriminate].
    injection H as <- <-. destruct (IH a b eq_refl) as [-> Hn].
    split; [reflexivity|]. intros [H'|H']; [congruence | tauto].
Qed.

Lemma dict_set_absent d k v : ~ In k (map fst d) -> dict_set d k v = d ++ [(k, v)].
Proof.
  induction d as [|[k' v'] d IH]; intros H; [reflexivity|]; simpl.
  destruct (list_eq_dec Z.eq_dec k k') as [E|E].
  - subst; exfalso; apply H; left; reflexivity.
  - rewrite IH by (intro; apply H; right; assumption); reflexivity.
Qed.

Lemma dict_set_present_keys d k v : In k (map fst d) -> map fst (dict_set d k v) = map fst d.
Proof.
  induction d as [|[k' v'] d IH]; intros H; [destruct H|]; simpl.
  destruct (list_eq_dec Z.eq_dec k k') as [E|E]; [reflexivity|].
  simpl; rewrite IH; [reflexivity|].
  destruct H as [H|H]; [simpl in H; congruence | exact H].
Qed.

Lemma dict_set_Forall (P : pstr * pstr -> Prop) d k v :
  Forall P d -> P (k, v) -> Forall P (dict_set d k v).
Proof.
  induction d as [|[k' v'] d IH]; intros Hd Hkv; simpl; [constructor; auto|].
  inversion Hd; subst.
  destruct (list_eq_dec Z.eq_dec k k') as [E|E]; subst; constructor; auto.
Qed.

Lemma NoDup_snoc {A} (l : list A) a : NoDup l -> ~ In a l -> NoDup (l ++ [a]).
Proof.
  induction l as [|x l IH]; intros Hl Ha; simpl; [constructor; [tauto|constructor]|].
  inversion Hl; subst; constructor.
  - intros Hin; apply in_app_or in Hin; destruct Hin as [Hin|[E|[]]];
      [tauto | subst; apply Ha; left; reflexivity].
  - apply IH; [assumption | intro; apply Ha; right; assumption].
Qed.

Lemma dict_set_wf d k v :
  query_wf d -> ~ In AMP k -> ~ In EQ k -> ~ In AMP v -> query_wf (dict_set d k v).
Proof.
  intros [Hn Hf] H1 H2 H3; split.
  - destruct (in_dec (list_eq_dec Z.eq_dec) k (map fst d)) as [Hin|Hin].
    + rewrite dict_set_present_keys by exact Hin; exact Hn.
    + rewrite dict_set_absent by exact Hin; rewrite map_app; apply NoDup_snoc; assumption.
  - apply dict_set_Forall; [exact Hf | simpl; tauto].
Qed.

Lemma parse_fold_wf segs acc :
  query_wf acc -> (forall seg, In seg segs -> ~ In AMP seg) ->
  query_wf (fold_left (fun qp param =>
               match split_once EQ param with
               | Some (k, v) => dict_set qp k v
               | None => qp
               end) segs acc).
Proof.
  revert acc; induction segs as [|seg segs IH]; intros acc Hacc Hsegs; simpl; [exact Hacc|].
  apply IH; [|intros; apply Hsegs; right; assumption].
  destruct (split_once EQ seg) as [[k v]|] eqn:Hs; [|exact Hacc].
  destruct (split_once_some _ _ _ _ Hs) as [-> Hk].
  assert (Hn : ~ In AMP (k ++ EQ :: v)) by (apply Hsegs; left; reflexivity).
  apply dict_set_wf; [exact Hacc | | exact Hk |];
    intro; apply Hn; apply in_or_app; [left | right; right]; assumption.
Qed.

Lemma parse_query_wf q : query_wf (parse_query q).
Proof.
  unfold parse_query; apply parse_fold_wf.
  - split; constructor.
  - intros seg; apply split_on_segments.
Qed.

Lemma parse_fold_segments d acc :
  NoDup (map fst (acc ++ d)) -> Forall (fun kv => ~ In EQ (fst kv)) d ->
  fold_left (fun qp param =>
               match split_once EQ param with
               | Some (k, v) => dict_set qp k v
               | None => qp
               end) (map (fun kv => fst kv ++ [EQ] ++ snd kv) d) acc = acc ++ d.
Proof.
  revert acc; induction d as [|[k v] d IH]; intros acc Hn Hf; simpl; [rewrite app_nil_r; reflexivity|].
  inversion Hf; subst. rewrite split_once_app by assumption.
  rewrite map_app in Hn; simpl in Hn.
  rewrite dict_set_absent
    by (intro Hin; apply (NoDup_remove_2 _ _ _ Hn); apply in_or_app; left; exact Hin).
  rewrite IH; [rewrite <- app_assoc; reflexivity | | assumption].
  rewrite <- app_assoc, map_app; simpl; exact Hn.
Qed.

Lemma render_parse d : query_wf d -> parse_query (render d) = d.
Proof.
  intros [Hn Hf]. destruct d as [|kv d']; [reflexivity|].
  unfold parse_query, render.
  rewrite split_on_pjoin.
  - apply (parse_fold_segments _ []); [exact Hn|].
    eapply Forall_impl; [|exact Hf]; simpl; tauto.
  - simpl; congruence.
  - apply Forall_map. eapply Forall_impl; [|exact Hf].
    intros [k v] (H1 & H2 & H3) Hin; simpl in Hin.
    apply in_app_or in Hin; destruct Hin as [Hin|[E|Hin]]; [tauto | discriminate | tauto].
Qed.

Lemma qlookup_dict_set_same d k v : qlookup (dict_set d k v) k = Some v.
Proof.
  induction d as [|[k' v'] d IH]; simpl.
  - destruct (list_eq_dec Z.eq_dec k k); congruence.
  - destruct (list_eq_dec Z.eq_dec k k') as [E|E]; simpl.
    + subst; destruct (list_eq_dec Z.eq_dec k' k'); congruence.
    + destruct (list_eq_dec Z.eq_dec k k'); [congruence | exact IH].
Qed.

Lemma qlookup_dict_set_other d k v k2 : k2 <> k -> qlookup (dict_set d k v) k2 = qlookup d k2.
Proof.
  intros Hne; induction d as [|[k' v'] d IH]; simpl.
  - destruct (list_eq_dec Z.eq_dec k2 k); congruence.
  - destruct (list_eq_dec Z.eq_dec k k') as [E|E]; simpl.
    + subst; destruct (list_eq_dec Z.eq_dec k2 k'); congruence.
    + destruct (list_eq_dec Z.eq_dec k2 k'); [reflexivity | exact IH].
Qed.

Lemma qlookup_wf d k v : query_wf d -> qlookup d k = Some v -> ~ In AMP v.
Proof.
  intros [_ Hf]; induction d as [|[k' v'] d IH]; simpl; [discriminate|].
  inversion Hf; subst.
  destruct (list_eq_dec Z.eq_dec k k'); [intros E; inversion E; subst; simpl in *; tauto|].
  apply IH; assumption.
Qed.

Lemma format_session_id_dash sid : In DASH (format_session_id sid).
Proof. unfold format_session_id; apply in_or_app; right; left; reflexivity. Qed.

Lemma format_session_id_no_amp sid : ~ In AMP sid -> ~ In AMP (format_session_id sid).
Proof.
  intros H Hin; unfold format_session_id in Hin.
  repeat (apply in_app_or in Hin; destruct Hin as [Hin|Hin];
          [try (apply H; eauto using in_firstn_sub, in_skipn_sub); try (destruct Hin as [E|[]]; discriminate)|]).
  apply H; eauto using in_skipn_sub.
Qed.

Lemma session_format_cases s :
  session_format s = s
  \/ (messages_request s = true
      /\ session_format s
         = mk_scope (scope_type s) (scope_path s)
             (Some (render (dict_set (parse_query (query_of s)) (ustr "session_id")
                                     (format_session_id (query_session_id s)))))
      /\ query_session_id s <> [] /\ ~ In DASH (query_session_id s)
      /\ length (query_session_id s) = 32%nat).
Proof.
  unfold session_format; fold (messages_request s); fold (query_of s); fold (query_session_id s).
  destruct (messages_request s) eqn:G; [|left; reflexivity].
  destruct (negb (pstr_eqb (query_session_id s) []) && negb (mem DASH (query_session_id s))
            && Nat.eqb (length (query_session_id s)) 32) eqn:C; [|left; reflexivity].
  right. apply andb_prop in C as [C C3]. apply andb_prop in C as [C1 C2].
  apply negb_true_iff in C1, C2. apply Nat.eqb_eq in C3.
  repeat split; auto.
  - intro E; apply pstr_eqb_spec in E; congruence.
  - intro E; apply mem_spec in E; congruence.
Qed.

Lemma query_session_id_no_amp s : ~ In AMP (query_session_id s).
Proof.
  unfold query_session_id; destruct (qlookup _ _) as [v|] eqn:E; [|simpl; tauto].
  exact (qlookup_wf _ _ _ (parse_query_wf _) E).
Qed.

Lemma session_id_key_ok : ~ In AMP (ustr "session_id") /\ ~ In EQ (ustr "session_id").
Proof. split; intro H; apply mem_spec in H; vm_compute in H; discriminate. Qed.

Lemma qlookup_in d k v : qlookup d k = Some v -> In k (map fst d).
Proof.
  induction d as [|[k' v'] d IH]; simpl; [discriminate|].
  destruct (list_eq_dec Z.eq_dec k k'); [left; congruence | right; auto].
Qed.

Lemma dict_set_nonempty d k v : dict_set d k v <> [].
Proof.
  destruct d as [|[k' v'] d]; simpl; [discriminate|].
  destruct (list_eq_dec Z.eq_dec k k'); discriminate.
Qed.

(** The dict the middleware renders back into the query string. *)
Definition rewritten_params (s : scope) : list (pstr * pstr) :=
  dict_set (parse_query (query_of s)) (ustr "session_id") (format_session_id (query_session_id s)).

Lemma rewritten_params_wf s : query_wf (rewritten_params s).
Proof.
  destruct session_id_key_ok as [H1 H2].
  apply dict_set_wf; auto using parse_query_wf.
  apply format_session_id_no_amp, query_session_id_no_amp.
Qed.

Lemma render_segments d :
  query_wf d -> d <> [] -> split_on AMP (render d) = map (fun kv => fst kv ++ [EQ] ++ snd kv) d.
Proof.
  intros [_ Hf] Hne; unfold render; apply split_on_pjoin.
  - destruct d; simpl; congruence.
  - apply Forall_map. eapply Forall_impl; [|exact Hf].
    intros [k v] (H1 & H2 & H3) Hin; simpl in Hin.
    apply in_app_or in Hin; destruct Hin as [Hin|[E|Hin]]; [tauto | discriminate | tauto].
Qed.

Lemma session_format_rewrite_eq s :
  messages_request s = true -> ~ In DASH (query_session_id s) ->
  length (query_session_id s) = 32%nat ->
  session_format s = mk_scope (scope_type s) (scope_path s) (Some (render (rewritten_params s))).
Proof.
  intros HG Hd Hl; unfold session_format, rewritten_params.
  fold (messages_request s); fold (query_of s); fold (query_session_id s).
  rewrite HG.
  destruct (pstr_eqb (query_session_id s) []) eqn:E1.
  { apply pstr_eqb_spec in E1; rewrite E1 in Hl; discriminate. }
  destruct (mem DASH (query_session_id s)) eqn:E2.
  { apply mem_spec in E2; contradiction. }
  rewrite Hl; reflexivity.
Qed.

Lemma split_on_app3 c x y : ~ In c x -> split_on c (x ++ [c] ++ y) = x :: split_on c y.
Proof. exact (split_on_app c x y). Qed.

Definition example_scope : scope :=
  mk_scope (ustr "http") (Some (ustr "/messages/"))
    (Some (ustr "x&session_id=0123456789abcdef0123456789abcdef&a=1=2")).

(** X4: applying the middleware to the scope it produced changes nothing:
    a reformatted session id contains "-", so it is never reformatted again. *)
Theorem session_format_idempotent s : session_format (session_format s) = session_format s.
Proof.
  destruct (session_format_cases s) as [E | (G & E & _ & _ & _)]; rewrite E; [exact E|].
  fold (rewritten_params s).
  destruct (session_format_cases (mk_scope (scope_type s) (scope_path s)
                                    (Some (render (rewritten_params s)))))
    as [E2 | (_ & _ & _ & HD & _)]; [exact E2|].
  exfalso; apply HD.
  unfold query_session_id, query_of; simpl.
  rewrite render_parse by apply rewritten_params_wf.
  unfold rewritten_params; rewrite qlookup_dict_set_same.
  apply format_session_id_dash.
Qed.

(** X3: the scope is passed on unchanged unless it is an HTTP request on a
    "/messages/" path whose session_id is 32 characters long with no "-". *)
Theorem session_format_passthrough s :
  messages_request s = false \/ In DASH (query_session_id s)
  \/ length (query_session_id s) <> 32%nat ->
  session_format s = s.
Proof.
  intros H; unfold session_format.
  fold (messages_request s); fold (query_of s); fold (query_session_id s).
  destruct H as [H|[H|H]]; [rewrite H; reflexivity| |].
  - apply mem_spec in H; rewrite H; rewrite !andb_false_r; destruct (messages_request s); reflexivity.
  - apply Nat.eqb_neq in H; rewrite H; rewrite !andb_false_r; destruct (messages_request s); reflexivity.
Qed.

Lemma session_format_passthrough_witness :
  let s := mk_scope (ustr "websocket") (Some (ustr "/messages/"))
             (Some (ustr "session_id=0123456789abcdef0123456789abcdef")) in
  (messages_request s = false \/ In DASH (query_session_id s)
   \/ length (query_session_id s) <> 32%nat) /\ session_format s = s.
Proof.
  intros s; split; [left; vm_compute; reflexivity|].
  apply session_format_passthrough; left; vm_compute; reflexivity.
Defined.

(** X2: a 32-character id without "-" is cut at "-" into five groups of
    8, 4, 4, 4 and 12 characters which, put together, give the id back. *)
Theorem format_session_id_groups sid :
  length sid = 32%nat -> ~ In DASH sid ->
  map (@length Z) (split_on DASH (format_session_id sid)) = [8; 4; 4; 4; 12]%nat
  /\ concat (split_on DASH (format_session_id sid)) = sid.
Proof.
  intros Hl Hd.
  assert (Hf : forall n l, ~ In DASH l -> ~ In DASH (firstn n l))
    by (intros n l Hn Hin; apply Hn; eapply in_firstn_sub; exact Hin).
  assert (Hs : forall n l, ~ In DASH l -> ~ In DASH (skipn n l))
    by (intros n l Hn Hin; apply Hn; eapply in_skipn_sub; exact Hin).
  unfold format_session_id.
  rewrite split_on_app3 by auto. rewrite split_on_app3 by auto.
  rewrite split_on_app3 by auto. rewrite split_on_app3 by auto.
  rewrite split_on_none by auto.
  split.
  - cbn [map]. rewrite !length_firstn, !length_skipn, Hl. reflexivity.
  - cbn [concat]. rewrite app_nil_r.
    replace (skipn 20 sid) with (skipn 4 (skipn 16 sid)) by (rewrite skipn_skipn; reflexivity).
    rewrite firstn_skipn.
    replace (skipn 16 sid) with (skipn 4 (skipn 12 sid)) by (rewrite skipn_skipn; reflexivity).
    rewrite firstn_skipn.
    replace (skipn 12 sid) with (skipn 4 (skipn 8 sid)) by (rewrite skipn_skipn; reflexivity).
    rewrite !firstn_skipn. reflexivity.
Qed.

Lemma format_session_id_groups_witness :
  let sid := ustr "0123456789abcdef0123456789abcdef" in
  (length sid = 32%nat /\ ~ In DASH sid) /\
  (map (@length Z) (split_on DASH (format_session_id sid)) = [8; 4; 4; 4; 12]%nat
   /\ concat (split_on DASH (format_session_id sid)) = sid).
Proof.
  intros sid.
  assert (Hd : ~ In DASH sid) by (intro H; apply mem_spec in H; vm_compute in H; discriminate).
  split; [split; [vm_compute; reflexivity | exact Hd]|].
  apply format_session_id_groups; [vm_compute; reflexivity | exact Hd].
Defined.

(** X1: when the middleware reformats the id, it changes nothing else: the
    scope's type and path stay, the new query string holds the formatted id
    under session_id, the same parameter names in the same order, and every
    other parameter with its (last) value. *)
Theorem session_format_rewrites s :
  messages_request s = true -> ~ In DASH (query_session_id s) ->
  length (query_session_id s) = 32%nat ->
  let s' := session_format s in
  scope_type s' = scope_type s /\ scope_path s' = scope_path s
  /\ qlookup (parse_query (query_of s')) (ustr "session_id")
     = Some (format_session_id (query_session_id s))
  /\ map fst (parse_query (query_of s')) = map fst (parse_query (query_of s))
  /\ (forall k, k <> ustr "session_id" ->
        qlookup (parse_query (query_of s')) k = qlookup (parse_query (query_of s)) k).
Proof.
  intros HG Hd Hl s'; subst s'.
  rewrite (session_format_rewrite_eq s HG Hd Hl).
  assert (E : parse_query (query_of (mk_scope (scope_type s) (scope_path s)
                                       (Some (render (rewritten_params s)))))
              = rewritten_params s)
    by (apply render_parse, rewritten_params_wf).
  rewrite E; unfold rewritten_params.
  repeat split.
  - apply qlookup_dict_set_same.
  - apply dict_set_present_keys.
    unfold query_session_id in Hl.
    destruct (qlookup (parse_query (query_of s)) (ustr "session_id")) eqn:Hq;
      [eapply qlookup_in; exact Hq | discriminate].
  - intros k Hk; apply qlookup_dict_set_other; exact Hk.
Qed.

Lemma example_scope_conditions :
  messages_request example_scope = true /\ ~ In DASH (query_session_id example_scope)
  /\ length (query_session_id example_scope) = 32%nat.
Proof.
  split; [vm_compute; reflexivity|]; split; [|vm_compute; reflexivity].
  intro H; apply mem_spec in H; vm_compute in H; discriminate.
Qed.

Lemma session_format_rewrites_witness :
  (messages_request example_scope = true /\ ~ In DASH (query_session_id example_scope)
   /\ length (query_session_id example_scope) = 32%nat)
  /\ let s' := session_format example_scope in
  scope_type s' = scope_type example_scope /\ scope_path s' = scope_path example_scope
  /\ qlookup (parse_query (query_of s')) (ustr "session_id")
     = Some (format_session_id (query_session_id example_scope))
  /\ map fst (parse_query (query_of s')) = map fst (parse_query (query_of example_scope))
  /\ (forall k, k <> ustr "session_id" ->
        qlookup (parse_query (query_of s')) k = qlookup (parse_query (query_of example_scope)) k).
Proof.
  destruct example_scope_conditions as (H1 & H2 & H3).
  split; [split; [exact H1 | split; assumption]|].
  exact (session_format_rewrites example_scope H1 H2 H3).
Defined.

(** X5: in a query string the middleware rewrote, every "&"-separated part
    has the form key=value: parts without "=" of the original are dropped. *)
Theorem session_format_query_segments s :
  messages_request s = true -> ~ In DASH (query_session_id s) ->
  length (query_session_id s) = 32%nat ->
  forall seg, In seg (split_on AMP (query_of (session_format s))) -> In EQ seg.
Proof.
  intros HG Hd Hl seg.
  rewrite (session_format_rewrite_eq s HG Hd Hl); unfold query_of; simpl.
  rewrite render_segments by (apply rewritten_params_wf || apply dict_set_nonempty).
  intros Hin; apply in_map_iff in Hin; destruct Hin as [[k v] [<- _]].
  simpl; apply in_or_app; right; left; reflexivity.
Qed.

Lemma session_format_query_segments_witness :
  (messages_request example_scope = true /\ ~ In DASH (query_session_id example_scope)
   /\ length (query_session_id example_scope) = 32%nat)
  /\ forall seg, In seg (split_on AMP (query_of (session_format example_scope))) -> In EQ seg.
Proof.
  destruct example_scope_conditions as (H1 & H2 & H3).
  split; [split; [exact H1 | split; assumption]|].
  exact (session_format_query_segments example_scope H1 H2 H3).
Defined.

(** The value the last ["&"]-separated part of the form [k=...] gives to
    [k], reading the parts left to right. *)
Definition last_assignment (segs : list pstr) (k : pstr) : option pstr :=
  fold_left (fun acc seg =>
               match split_once EQ seg with
               | Some (k', v) => if list_eq_dec Z.eq_dec k k' then Some v else acc
               | None => acc
               end) segs None.

Lemma parse_fold_lookup segs acc k :
  qlookup (fold_left (fun qp param =>
                        match split_once EQ param with
                        | Some (k', v) => dict_set qp k' v
                        | None => qp
                        end) segs acc) k
  = fold_left (fun acc seg =>
                 match split_once EQ seg with
                 | Some (k', v) => if list_eq_dec Z.eq_dec k k' then Some v else acc
                 | None => acc
                 end) segs (qlookup acc k).
Proof.
  revert acc; induction segs as [|seg segs IH]; intros acc; simpl; [reflexivity|].
  rewrite IH; f_equal.
  destruct (split_once EQ seg) as [[k' v]|]; [|reflexivity].
  destruct (list_eq_dec Z.eq_dec k k') as [->|Hne].
  - apply qlookup_dict_set_same.
  - apply qlookup_dict_set_other; exact Hne.
Qed.

(** X6: the parsed parameters have distinct names; each name is bound to the
    value of the last part of the query that assigns it; and rendering them
    with ["&".join(f"{k}={v}")] and parsing again gives the same parameters. *)
Theorem parse_render_roundtrip q :
  NoDup (map fst (parse_query q))
  /\ (forall k, qlookup (parse_query q) k = last_assignment (split_on AMP q) k)
  /\ parse_query (render (parse_query q)) = parse_query q.
Proof.
  split; [apply parse_query_wf|]; split.
  - intros k; unfold parse_query, last_assignment; apply parse_fold_lookup.
  - apply render_parse, parse_query_wf.
Qed.

End SessionFormat.

(** * Module-level configuration (gaode_weather.py, lines 21-39 and 115-139;
    server.py, lines 29-61)

    [os.environ] after [load_dotenv()], as an association list. *)
Module Config.

Definition environ : Type := list (string * string).

Fixpoint env_lookup (env : environ) (k : string) : option string :=
  match env with
  | [] => None
  | (k', v) :: env' => if String.eqb k k' then Some v else env_lookup env' k
  end.

(** [os.environ.get(k, dflt)]: a variable set to the empty string is
    returned as is. *)
Definition env_get (env : environ) (k dflt : string) : string :=
  match env_lookup env k with Some v => v | None => dflt end.

Definition AMAP_KEY (env : environ) : string := env_get env "AMAP_KEY" AMAP_KEY_DEFAULT.
Definition AMAP_BASE_URL (env : environ) : string :=
  env_get env "AMAP_BASE_URL" AMAP_BASE_URL_DEFAULT.

(** [GaodeWeatherAPI(api_key, base_url)] in a process with environment [env]. *)
Definition new_api (env : environ) (api_key base_url : option string) : GaodeWeatherAPI :=
  GaodeWeatherAPI_init (AMAP_KEY env) (AMAP_BASE_URL env) api_key base_url.

(** [if self.api_key == "your_amap_key_here": logger.warning(...)] *)
Definition init_warns (self : GaodeWeatherAPI) : bool :=
  String.eqb (api_key self) "your_amap_key_here".

(** [default_api = GaodeWeatherAPI()] and server.py's
    [weather_api = GaodeWeatherAPI()]. *)
Definition default_api (env : environ) : GaodeWeatherAPI := new_api env None None.
Definition weather_api (env : environ) : GaodeWeatherAPI := new_api env None None.

(** The module-level wrappers of gaode_weather.py. *)
Definition module_get_weather_live upstream env (city : string) : Py pyval :=
  get_weather_live upstream (default_api env) city.
Definition module_get_weather_forecast upstream env (city : string) : Py pyval :=
  get_weather_forecast upstream (default_api env) city.

(** The MCP tools of server.py. *)
Definition tool_get_weather_live upstream env (city : string) : Py pyval :=
  get_weather_live upstream (weather_api env) city.
Definition tool_get_weather_forecast upstream env (city : string) : Py pyval :=
  get_weather_forecast upstream (weather_api env) city.

(** X7: the default client warns exactly when AMAP_KEY is unset or set to the
    placeholder; an AMAP_KEY set to the empty string is sent as the empty key,
    without a warning. *)
Theorem default_api_warning env :
  (init_warns (default_api env) = true
   <-> env_lookup env "AMAP_KEY" = None
       \/ env_lookup env "AMAP_KEY" = Some "your_amap_key_here")
  /\ (env_lookup env "AMAP_KEY" = Some "" ->
      api_key (default_api env) = "" /\ init_warns (default_api env) = false).
Proof.
  unfold init_warns, default_api, new_api, GaodeWeatherAPI_init, AMAP_KEY, env_get; simpl.
  destruct (env_lookup env "AMAP_KEY") as [v|]; split.
  - rewrite String.eqb_eq; split; [intros ->; right; reflexivity|].
    intros [H|H]; [discriminate | injection H as ->; reflexivity].
  - intros H; injection H as ->; split; reflexivity.
  - split; [intros _; left; reflexivity | reflexivity].
  - discriminate.
Qed.

(** X8: the MCP tools and the module-level wrappers each send one GET to
    [AMAP_BASE_URL + "/weatherInfo"] with key [AMAP_KEY], both read from the
    environment with their defaults (an empty AMAP_BASE_URL gives the
    relative URL "/weatherInfo"). *)
Theorem environment_requests upstream env city :
  let url := env_get env "AMAP_BASE_URL" AMAP_BASE_URL_DEFAULT ++ "/weatherInfo" in
  let key := env_get env "AMAP_KEY" AMAP_KEY_DEFAULT in
  let live := [mk_request "GET" url
                 [("key", key); ("city", city); ("extensions", "base"); ("output", "JSON")]] in
  let forecast := [mk_request "GET" url
                 [("key", key); ("city", city); ("extensions", "all"); ("output", "JSON")]] in
  fst (run (tool_get_weather_live upstream env city)) = live
  /\ fst (run (tool_get_weather_forecast upstream env city)) = forecast
  /\ fst (run (module_get_weather_live upstream env city)) = live
  /\ fst (run (module_get_weather_forecast upstream env city)) = forecast.
Proof.
  unfold tool_get_weather_live, tool_get_weather_forecast,
    module_get_weather_live, module_get_weather_forecast.
  rewrite !get_weather_live_query, !get_weather_forecast_query, !run_weather_query.
  rewrite !keeps_log_handle_response.
  unfold weather_request, weather_api, default_api, new_api, GaodeWeatherAPI_init; simpl.
  repeat split.
Qed.

End Config.

(** * [RotatingFile] (sse_server.py, lines 309-356)

    The log directory: index 0 is [filename], index [i > 0] is
    [f"{filename}.{i}"]; [None] is a missing file.  Strings are UTF-8 byte
    sequences, so [len(data.encode('utf-8'))] is [String.length data].  Every
    write is flushed at once, so the open handle's content is the file's. *)
Module Rotating.

Definition files : Type := nat -> option string.

Record RotatingFile : Type := mk_rf {
  rf_files : files;
  rf_size : Z;        (* self.file_size *)
  rf_max : Z;         (* self.max_bytes *)
  rf_backup : Z       (* self.backup_count *)
}.

Definition content (o : option string) : string :=
  match o with Some c => c | None => "" end.

(** [os.path.exists] *)
Definition path_exists (fs : files) (i : nat) : bool :=
  match fs i with Some _ => true | None => false end.

(** [os.remove] *)
Definition remove (fs : files) (i : nat) : files :=
  fun j => if Nat.eqb j i then None else fs j.

(** [if os.path.exists(src): os.rename(src, dst)]; POSIX rename replaces
    [dst]. *)
Definition rename_if (fs : files) (src dst : nat) : files :=
  match fs src with
  | Some c => fun j => if Nat.eqb j dst then Some c else if Nat.eqb j src then None else fs j
  | None => fs
  end.

(** [for i in range(k, 0, -1): if exists(.i): rename(.i, .i+1)] *)
Fixpoint rename_down (fs : files) (k : nat) : files :=
  match k with
  | O => fs
  | S k' => rename_down (rename_if fs (S k') (S (S k'))) k'
  end.

(** [__init__]: [open(filename, 'a')] creates the file if needed. *)
Definition RotatingFile_init (fs : files) (max_bytes backup_count : Z) : RotatingFile :=
  mk_rf (fun j => if Nat.eqb j 0 then Some (content (fs O)) else fs j)
        (Z.of_nat (String.length (content (fs O)))) max_bytes backup_count.

Definition do_rollover (st : RotatingFile) : RotatingFile :=
  let N := rf_backup st in
  let fs0 := rf_files st in
  let fs1 := if (0 <? N) && path_exists fs0 (Z.to_nat N) then remove fs0 (Z.to_nat N) else fs0 in
  let fs2 := rename_down fs1 (Z.to_nat (N - 1)) in
  let fs3 := rename_if fs2 O 1 in
  let fs4 := fun j => if Nat.eqb j 0 then Some "" else fs3 j in
  mk_rf fs4 0 (rf_max st) N.

Definition write (st : RotatingFile) (data : string) : RotatingFile :=
  let data_len := Z.of_nat (String.length data) in
  let st1 := if rf_size st + data_len >? rf_max st then do_rollover st else st in
  mk_rf (fun j => if Nat.eqb j 0 then Some (content (rf_files st1 O) ++ data) else rf_files st1 j)
        (rf_size st1 + data_len) (rf_max st1) (rf_backup st1).

Definition write_all (st : RotatingFile) (ds : list string) : RotatingFile :=
  fold_left write ds st.

(** The files [.k, ..., .1, filename] one after the other. *)
Fixpoint backlog (fs : files) (k : nat) : string :=
  match k with
  | O => content (fs O)
  | S k' => content (fs (S k')) ++ backlog fs k'
  end.

(** [self.file_size] is the byte length of the current file. *)
Definition size_inv (st : RotatingFile) : Prop :=
  exists c, rf_files st O = Some c /\ rf_size st = Z.of_nat (String.length c).

Lemma string_length_app (a b : string) : String.length (a ++ b) = (String.length a + String.length b)%nat.
Proof. induction a as [|ch a IH]; simpl; [reflexivity | rewrite IH; reflexivity]. Qed.

Lemma rename_down_spec fs k :
  fs (S k) = None ->
  forall j, rename_down fs k j
            = if Nat.eqb j 0 then fs O
              else if Nat.eqb j 1 then None
              else if Nat.leb j (S k) then fs (pred j) else fs j.
Proof.
  revert fs; induction k as [|k IH]; intros fs Hk j; simpl.
  - destruct j as [|[|j]]; simpl; [reflexivity | exact Hk | reflexivity].
  - set (fs' := rename_if fs (S k) (S (S k))).
    assert (Hk' : fs' (S k) = None).
    { unfold fs', rename_if; destruct (fs (S k)) eqn:E; [|exact E].
      rewrite (proj2 (Nat.eqb_neq (S k) (S (S k))) ltac:(lia)), Nat.eqb_refl; reflexivity. }
    rewrite (IH fs' Hk' j).
    assert (Hfs' : forall i, i <> S k -> i <> S (S k) -> fs' i = fs i).
    { intros i H1 H2; unfold fs', rename_if; destruct (fs (S k)); [|reflexivity].
      rewrite (proj2 (Nat.eqb_neq _ _) H2), (proj2 (Nat.eqb_neq _ _) H1); reflexivity. }
    destruct (Nat.eqb_spec j 0) as [->|J0]; [apply Hfs'; lia|].
    destruct (Nat.eqb_spec j 1) as [->|J1]; [reflexivity|].
    destruct (Nat.leb_spec j (S k)) as [J|J].
    + rewrite (proj2 (Nat.leb_le j (S (S k)))) by lia. apply Hfs'; lia.
    + destruct (Nat.leb_spec j (S (S k))) as [J'|J'].
      * assert (j = S (S k)) as -> by lia; simpl.
        unfold fs', rename_if; destruct (fs (S k)) eqn:E.
        -- rewrite Nat.eqb_refl; reflexivity.
        -- exact Hk.
      * apply Hfs'; lia.
Qed.

(** With at least one backup, a rollover shifts [.i] to [.i+1] up to [.N],
    the current file to [.1], starts an empty file and leaves the rest. *)
Lemma do_rollover_files st :
  1 <= rf_backup st ->
  forall j, rf_files (do_rollover st) j
            = if Nat.eqb j 0 then Some ""
              else if Nat.leb j (Z.to_nat (rf_backup st)) then rf_files st (pred j)
              else rf_files st j.
Proof.
  intros HN j; unfold do_rollover; simpl.
  set (N := rf_backup st) in *. set (fs := rf_files st).
  set (n := Z.to_nat (N - 1)).
  assert (HSn : S n = Z.to_nat N) by (unfold n; lia).
  set (fs1 := if (0 <? N) && path_exists fs (Z.to_nat N) then remove fs (Z.to_nat N) else fs).
  assert (H1 : forall i, i <> Z.to_nat N -> fs1 i = fs i).
  { intros i Hi; unfold fs1; destruct (_ && _); [|reflexivity].
    unfold remove; rewrite (proj2 (Nat.eqb_neq _ _) Hi); reflexivity. }
  assert (H1N : fs1 (S n) = None).
  { rewrite HSn; unfold fs1.
    rewrite (proj2 (Z.ltb_lt 0 N)) by lia; simpl.
    unfold path_exists; destruct (fs (Z.to_nat N)) eqn:E; simpl.
    - unfold remove; rewrite Nat.eqb_refl; reflexivity.
    - exact E. }
  destruct (Nat.eqb_spec j 0) as [->|J0]; [reflexivity|].
  unfold rename_if at 1.
  pose proof (rename_down_spec fs1 n H1N) as R.
  rewrite (R O); simpl.
  rewrite (H1 O) by lia.
  destruct (fs O) as [c|] eqn:E0.
  - destruct (Nat.eqb_spec j 1) as [->|J1].
    + rewrite (proj2 (Nat.leb_le 1 (Z.to_nat N))) by lia; simpl; rewrite E0; reflexivity.
    + rewrite (proj2 (Nat.eqb_neq j 0)) by lia.
      rewrite R, (proj2 (Nat.eqb_neq j 0)), (proj2 (Nat.eqb_neq j 1)) by lia.
      rewrite HSn.
      destruct (Nat.leb_spec j (Z.to_nat N)); [|apply H1; lia].
      apply H1; lia.
  - rewrite R, (proj2 (Nat.eqb_neq j 0)) by lia.
    destruct (Nat.eqb_spec j 1) as [->|J1].
    + rewrite (proj2 (Nat.leb_le 1 (Z.to_nat N))) by lia; simpl; symmetry; exact E0.
    + rewrite HSn.
      destruct (Nat.leb_spec j (Z.to_nat N)); [|apply H1; lia].
      apply H1; lia.
Qed.

Lemma backlog_ext fs fs' k : (forall j, (j <= k)%nat -> fs j = fs' j) -> backlog fs k = backlog fs' k.
Proof.
  induction k as [|k IH]; intros H; simpl.
  - rewrite H by lia; reflexivity.
  - rewrite H by lia. rewrite IH by (intros; apply H; lia). reflexivity.
Qed.

Lemma backlog_shift fs fs' k :
  fs' O = Some "" -> (forall j, (1 <= j <= k)%nat -> fs' j = fs (pred j)) ->
  backlog fs' k = match k with O => "" | S k' => backlog fs k' end.
Proof.
  intros H0 H; induction k as [|k IH]; [simpl; rewrite H0; reflexivity|].
  cbn [backlog]. rewrite H by lia. cbn [pred].
  destruct k as [|k].
  - cbn [backlog]. rewrite H0. apply str_app_nil_r.
  - rewrite IH by (intros; apply H; lia). reflexivity.
Qed.

Lemma backlog_append fs data k :
  backlog (fun j => if Nat.eqb j 0 then Some (content (fs O) ++ data) else fs j) k
  = backlog fs k ++ data.
Proof.
  induction k as [|k IH]; simpl; [reflexivity|].
  rewrite IH, str_app_assoc; reflexivity.
Qed.
Lemma do_rollover_size_inv st : size_inv (do_rollover st).
Proof. exists ""; split; reflexivity. Qed.

Lemma write_size_inv st data : size_inv st -> size_inv (write st data).
Proof.
  intros Hst; unfold write.
  set (b := rf_size st + Z.of_nat (String.length data) >? rf_max st).
  assert (H1 : size_inv (if b then do_rollover st else st))
    by (destruct b; [apply do_rollover_size_inv | exact Hst]).
  revert H1; generalize (if b then do_rollover st else st); intros st1 [c [Hc Hs]].
  exists (c ++ data); simpl; rewrite Hc; split; [reflexivity|].
  rewrite Hs, string_length_app; lia.
Qed.

Lemma write_preserves st data :
  rf_max (write st data) = rf_max st /\ rf_backup (write st data) = rf_backup st.
Proof. unfold write; destruct (_ >? _); split; reflexivity. Qed.

(** X9: however many writes follow [__init__], [file_size] is the byte
    length of the current file. *)
Theorem rotating_size_invariant fs max_bytes backup_count ds :
  size_inv (write_all (RotatingFile_init fs max_bytes backup_count) ds).
Proof.
  unfold write_all.
  assert (H : size_inv (RotatingFile_init fs max_bytes backup_count))
    by (exists (content (fs O)); split; reflexivity).
  revert H; generalize (RotatingFile_init fs max_bytes backup_count).
  induction ds as [|d ds IH]; intros st H; simpl; [exact H|].
  apply IH, write_size_inv, H.
Qed.

(** X10: if the existing file and every single write fit in [max_bytes], the
    current file never grows beyond [max_bytes]. *)
Theorem rotating_size_bound fs max_bytes backup_count ds :
  Z.of_nat (String.length (content (fs O))) <= max_bytes ->
  (forall d, In d ds -> Z.of_nat (String.length d) <= max_bytes) ->
  rf_size (write_all (RotatingFile_init fs max_bytes backup_count) ds) <= max_bytes.
Proof.
  unfold write_all. intros H0.
  assert (Hst : rf_size (RotatingFile_init fs max_bytes backup_count) <= max_bytes
                /\ rf_max (RotatingFile_init fs max_bytes backup_count) = max_bytes)
    by (split; [exact H0 | reflexivity]).
  revert Hst; generalize (RotatingFile_init fs max_bytes backup_count).
  induction ds as [|d ds IH]; intros st [Hs Hm] Hds; simpl; [exact Hs|].
  apply IH; [|intros; apply Hds; right; assumption].
  destruct (write_preserves st d) as [Hm' _].
  split; [|rewrite Hm'; exact Hm].
  assert (Hd := Hds d (or_introl eq_refl)).
  unfold write; simpl.
  destruct (Z.gtb_spec (rf_size st + Z.of_nat (String.length d)) (rf_max st)); simpl; lia.
Qed.

Definition small_log : RotatingFile := RotatingFile_init (fun _ => None) 6 3.

Lemma rotating_size_bound_witness :
  (Z.of_nat (String.length (content ((fun _ : nat => @None string) O))) <= 6
   /\ (forall d, In d ["abc"; "defgh"] -> Z.of_nat (String.length d) <= 6))
  /\ rf_size (write_all (RotatingFile_init (fun _ => None) 6 3) ["abc"; "defgh"]) <= 6.
Proof.
  assert (H0 : Z.of_nat (String.length (content ((fun _ : nat => @None string) O))) <= 6)
    by (simpl; lia).
  assert (Hd : forall d, In d ["abc"; "defgh"] -> Z.of_nat (String.length d) <= 6)
    by (intros d [<-|[<-|[]]]; simpl; lia).
  split; [split; assumption|].
  exact (rotating_size_bound (fun _ => None) 6 3 ["abc"; "defgh"] H0 Hd).
Defined.

(** X11: with at least one backup, a write loses nothing but the oldest
    backup: the files [.N, ..., .1, filename] read one after the other hold
    what they held before (without [.N] when the write rolls over) followed
    by the data written. *)
Theorem rotating_write_backlog st data :
  1 <= rf_backup st ->
  backlog (rf_files (write st data)) (Z.to_nat (rf_backup st))
  = (if rf_size st + Z.of_nat (String.length data) >? rf_max st
     then backlog (rf_files st) (pred (Z.to_nat (rf_backup st)))
     else backlog (rf_files st) (Z.to_nat (rf_backup st))) ++ data.
Proof.
  intros HN; unfold write.
  destruct (rf_size st + Z.of_nat (String.length data) >? rf_max st); cbn [rf_files];
    rewrite backlog_append; [|reflexivity].
  f_equal.
  rewrite (backlog_shift (rf_files st) (rf_files (do_rollover st))).
  - destruct (Z.to_nat (rf_backup st)) eqn:E; [lia | reflexivity].
  - rewrite do_rollover_files by exact HN; reflexivity.
  - intros j Hj; rewrite do_rollover_files by exact HN.
    rewrite (proj2 (Nat.eqb_neq j 0)) by lia.
    rewrite (proj2 (Nat.leb_le j _)) by lia; reflexivity.
Qed.

Lemma rotating_write_backlog_witness :
  let st := write small_log "abcd" in
  1 <= rf_backup st
  /\ backlog (rf_files (write st "xyz")) (Z.to_nat (rf_backup st))
     = (if rf_size st + Z.of_nat (String.length "xyz") >? rf_max st
        then backlog (rf_files st) (pred (Z.to_nat (rf_backup st)))
        else backlog (rf_files st) (Z.to_nat (rf_backup st))) ++ "xyz".
Proof.
  intros st; assert (H : 1 <= rf_backup st) by (vm_compute; discriminate).
  split; [exact H | exact (rotating_write_backlog st "xyz" H)].
Defined.

(** X12: with at least one backup, no sequence of writes creates, changes or
    removes a file numbered above [backup_count]. *)
Theorem rotating_no_extra_backups st ds j :
  1 <= rf_backup st -> (Z.to_nat (rf_backup st) < j)%nat ->
  rf_files (write_all st ds) j = rf_files st j.
Proof.
  unfold write_all; revert st; induction ds as [|d ds IH]; intros st HN Hj; simpl; [reflexivity|].
  destruct (write_preserves st d) as [_ Hb].
  rewrite IH by (rewrite Hb; assumption).
  unfold write; cbn [rf_files]; rewrite (proj2 (Nat.eqb_neq j 0)) by lia.
  destruct (_ >? _); [|reflexivity].
  change (rf_files (do_rollover st) j = rf_files st j).
  rewrite do_rollover_files by exact HN.
  rewrite (proj2 (Nat.eqb_neq j 0)) by lia.
  rewrite (proj2 (Nat.leb_gt j _)) by lia; reflexivity.
Qed.

Lemma rotating_no_extra_backups_witness :
  (1 <= rf_backup small_log /\ (Z.to_nat (rf_backup small_log) < 4)%nat)
  /\ rf_files (write_all small_log ["abcd"; "efgh"; "ijkl"; "mnop"; "qrst"]) 4%nat
     = rf_files small_log 4%nat.
Proof.
  assert (H1 : 1 <= rf_backup small_log) by (vm_compute; discriminate).
  assert (H2 : (Z.to_nat (rf_backup small_log) < 4)%nat) by (vm_compute; lia).
  split; [split; assumption|].
  exact (rotating_no_extra_backups small_log _ 4%nat H1 H2).
Defined.

(** X13: with [backup_count <= 0] a rollover still keeps the current file,
    as [.1], replacing any earlier [.1]; every other file is left alone. *)
Theorem rotating_zero_backups st c :
  rf_backup st <= 0 -> rf_files st O = Some c ->
  rf_files (do_rollover st) 1%nat = Some c /\ rf_files (do_rollover st) O = Some ""
  /\ (forall j, (1 < j)%nat -> rf_files (do_rollover st) j = rf_files st j)
  /\ rf_size (do_rollover st) = 0.
Proof.
  intros HN Hc; unfold do_rollover; simpl.
  rewrite (proj2 (Z.ltb_ge 0 (rf_backup st))) by lia; simpl.
  replace (Z.to_nat (rf_backup st - 1)) with O by lia; simpl.
  unfold rename_if; rewrite Hc.
  repeat split.
  intros j Hj; rewrite (proj2 (Nat.eqb_neq j 0)) by lia.
  rewrite (proj2 (Nat.eqb_neq j 1)) by lia; reflexivity.
Qed.

Lemma rotating_zero_backups_witness :
  let st := write (RotatingFile_init (fun j => if Nat.eqb j 1 then Some "old" else None) 3 0) "ab" in
  (rf_backup st <= 0 /\ rf_files st O = Some "ab")
  /\ (rf_files (do_rollover st) 1%nat = Some "ab" /\ rf_files (do_rollover st) O = Some ""
      /\ (forall j, (1 < j)%nat -> rf_files (do_rollover st) j = rf_files st j)
      /\ rf_size (do_rollover st) = 0).
Proof.
  intros st.
  assert (H1 : rf_backup st <= 0) by (vm_compute; discriminate).
  assert (H2 : rf_files st O = Some "ab") by reflexivity.
  split; [split; assumption | exact (rotating_zero_backups st "ab" H1 H2)].
Defined.

End Rotating.

(** * Terminal handling of the SSE server (sse_server.py, lines 187-217 and
    393-447)

    File descriptors and saved [termios] settings are opaque handles. *)
Module Terminal.

(** [restore_terminal_settings] is called from several threads: the monitor
    thread, the force-exit [threading.Timer] thread and the main thread
    ([KeyboardInterrupt] handler, [finally], [atexit]). Nothing locks it, so
    a call is modelled in two steps: [BeginRestore] is the part up to
    [tcsetattr] (the [terminal_restored] check and the choice of fd and
    settings), [CompleteRestore] is the [try] block ([tcsetattr], the write,
    the flush and [terminal_restored = True]). The calls between the two
    steps of a thread are kept in [pending]. *)
Record term : Type := mk_term {
  terminal_restored : bool;
  global_terminal_fd : option Z;
  global_terminal_settings : option Z;
  pending : list (nat * (Z * Z));
  (* each [tcsetattr] attempt: fd, settings, and whether the [try] block
     completed *)
  tcsetattr_calls : list (Z * Z * bool)
}.

(** The arguments, or else the globals if both are set. *)
Definition resolve_target (st : term) (fd old_settings : option Z) : option (Z * Z) :=
  match fd, old_settings with
  | Some f, Some o => Some (f, o)
  | _, _ =>
      match global_terminal_fd st, global_terminal_settings st with
      | Some f, Some o => Some (f, o)
      | _, _ => None
      end
  end.

Fixpoint find_pending (t : nat) (p : list (nat * (Z * Z))) : option (Z * Z) :=
  match p with
  | [] => None
  | (t', fo) :: p' => if Nat.eqb t t' then Some fo else find_pending t p'
  end.

Fixpoint remove_pending (t : nat) (p : list (nat * (Z * Z))) : list (nat * (Z * Z)) :=
  match p with
  | [] => []
  | (t', fo) :: p' => if Nat.eqb t t' then p' else (t', fo) :: remove_pending t p'
  end.

(** Thread [t] enters [restore_terminal_settings(fd, old_settings)] and runs
    up to the [try] block; it returns early if [terminal_restored] is set or
    no settings are known. *)
Definition begin_restore (st : term) (t : nat) (fd old_settings : option Z) : term :=
  if terminal_restored st then st
  else
    match resolve_target st fd old_settings with
    | None => st
    | Some fo =>
        mk_term (terminal_restored st) (global_terminal_fd st)
          (global_terminal_settings st) ((t, fo) :: pending st) (tcsetattr_calls st)
    end.

(** Thread [t] runs the [try] block; [ok] is whether it runs to its end
    (otherwise the exception is logged and the flag stays as it is). *)
Definition complete_restore (st : term) (t : nat) (ok : bool) : term :=
  match find_pending t (pending st) with
  | None => st
  | Some (f, o) =>
      mk_term (if ok then true else terminal_restored st)
        (global_terminal_fd st) (global_terminal_settings st)
        (remove_pending t (pending st)) (tcsetattr_calls st ++ [(f, o, ok)])
  end.

(** A call that runs without being interrupted by another thread. *)
Definition restore_terminal_settings (st : term) (t : nat) (fd old_settings : option Z)
  (ok : bool) : term :=
  complete_restore (begin_restore st t fd old_settings) t ok.

(** The monitor thread saves the settings in the globals; the threads step
    through their calls to the restore function. *)
Inductive term_event : Type :=
| SaveGlobals (fd settings : Z)
| BeginRestore (t : nat) (fd old_settings : option Z)
| CompleteRestore (t : nat) (ok : bool).

Definition term_step (st : term) (ev : term_event) : term :=
  match ev with
  | SaveGlobals f o =>
      mk_term (terminal_restored st) (Some f) (Some o) (pending st) (tcsetattr_calls st)
  | BeginRestore t f o => begin_restore st t f o
  | CompleteRestore t ok => complete_restore st t ok
  end.

(** Runs in which the calls do not overlap: each call's two steps follow
    each other. *)
Inductive serial_event : Type :=
| Save (fd settings : Z)
| Call (t : nat) (fd old_settings : option Z) (ok : bool).

Definition serialize (evs : list serial_event) : list term_event :=
  flat_map (fun e => match e with
                     | Save f o => [SaveGlobals f o]
                     | Call t f o ok => [BeginRestore t f o; CompleteRestore t ok]
                     end) evs.

(** [main]: [global_terminal_fd = None], [global_terminal_settings = None],
    [terminal_restored = False]. *)
Definition term_init : term := mk_term false None None [] [].

Definition completed_calls (calls : list (Z * Z * bool)) : nat :=
  length (filter (fun c => snd c) calls).

Lemma completed_calls_snoc calls f o ok :
  completed_calls (calls ++ [(f, o, ok)]) = (completed_calls calls + if ok then 1 else 0)%nat.
Proof.
  unfold completed_calls; rewrite filter_app, length_app; simpl.
  destruct ok; reflexivity.
Qed.

Lemma serialize_cons e evs : serialize (e :: evs) =
  (match e with
   | Save f o => [SaveGlobals f o]
   | Call t f o ok => [BeginRestore t f o; CompleteRestore t ok]
   end ++ serialize evs)%list.
Proof. reflexivity. Qed.

Lemma serial_invariant evs st :
  pending st = [] ->
  completed_calls (tcsetattr_calls st) = (if terminal_restored st then 1 else 0)%nat ->
  let st' := fold_left term_step (serialize evs) st in
  pending st' = []
  /\ completed_calls (tcsetattr_calls st') = (if terminal_restored st' then 1 else 0)%nat.
Proof.
  revert st; induction evs as [|e evs IH]; intros st P H; [split; assumption|].
  rewrite serialize_cons, fold_left_app.
  apply IH.
  - destruct e as [f o|t f o ok]; simpl; [exact P|].
    unfold begin_restore.
    destruct (terminal_restored st); [unfold complete_restore; rewrite P; exact P|].
    destruct (resolve_target st f o) as [[f' o']|];
      [|unfold complete_restore; rewrite P; exact P].
    unfold complete_restore; simpl; rewrite Nat.eqb_refl, P; reflexivity.
  - destruct e as [f o|t f o ok]; simpl; [exact H|].
    unfold begin_restore.
    destruct (terminal_restored st) eqn:R; [unfold complete_restore; rewrite P; simpl; rewrite R; exact H|].
    destruct (resolve_target st f o) as [[f' o']|];
      [|unfold complete_restore; rewrite P; simpl; rewrite R; exact H].
    unfold complete_restore; simpl; rewrite Nat.eqb_refl; simpl.
    rewrite completed_calls_snoc, H.
    destruct ok; reflexivity.
Qed.

Lemma restored_stays evs st :
  terminal_restored st = true -> pending st = [] ->
  let st' := fold_left term_step evs st in
  terminal_restored st' = true /\ pending st' = []
  /\ tcsetattr_calls st' = tcsetattr_calls st.
Proof.
  revert st; induction evs as [|ev evs IH]; intros st R P; simpl; [auto|].
  destruct ev as [f o|t f o|t ok]; simpl.
  - destruct (IH (mk_term (terminal_restored st) (Some f) (Some o) (pending st)
                   (tcsetattr_calls st))) as (R' & P' & C'); simpl; auto.
  - assert (E : begin_restore st t f o = st) by (unfold begin_restore; rewrite R; reflexivity).
    rewrite E; apply IH; assumption.
  - assert (E : complete_restore st t ok = st)
      by (unfold complete_restore; rewrite P; reflexivity).
    rewrite E; apply IH; assumption.
Qed.

(** X14: when the calls to the restore function do not overlap, the terminal
    settings are restored successfully at most once ([terminal_restored] is
    set exactly when one attempt has completed), and once the flag is set no
    run of any threads calls [tcsetattr] again. With no lock, two threads
    that both pass the [terminal_restored] check before either sets it both
    call [tcsetattr]: the restore can happen twice. *)
Theorem terminal_restored_once evs :
  let st := fold_left term_step (serialize evs) term_init in
  completed_calls (tcsetattr_calls st) = (if terminal_restored st then 1 else 0)%nat
  /\ (forall evs', terminal_restored st = true ->
      tcsetattr_calls (fold_left term_step evs' st) = tcsetattr_calls st)
  /\ (forall t1 t2 fd old_settings f o,
        t1 <> t2 -> terminal_restored st = false ->
        resolve_target st fd old_settings = Some (f, o) ->
        tcsetattr_calls
          (fold_left term_step
             [BeginRestore t1 fd old_settings; BeginRestore t2 fd old_settings;
              CompleteRestore t1 true; CompleteRestore t2 true] st)
        = (tcsetattr_calls st ++ [(f, o, true); (f, o, true)])%list).
Proof.
  intros st.
  destruct (serial_invariant evs term_init eq_refl eq_refl) as [P H].
  fold st in P, H.
  split; [exact H|]; split.
  - intros evs' R; apply (restored_stays evs' st R P).
  - intros t1 t2 fd old f o Hne R T.
    assert (Hne' : Nat.eqb t1 t2 = false) by (apply Nat.eqb_neq; exact Hne).
    simpl; unfold begin_restore; rewrite R, T; simpl.
    unfold resolve_target in T |- *; simpl.
    rewrite T; unfold complete_restore; simpl.
    rewrite P, Hne', Nat.eqb_refl; simpl.
    rewrite Nat.eqb_refl; simpl.
    rewrite <- app_assoc; reflexivity.
Qed.

Lemma terminal_restored_once_witness :
  let st := fold_left term_step (serialize [Save 0 7]) term_init in
  tcsetattr_calls
    (fold_left term_step
       [BeginRestore 1 None None; BeginRestore 2 None None;
        CompleteRestore 1 true; CompleteRestore 2 true] st)
  = [(0, 7, true); (0, 7, true)].
Proof.
  apply (proj2 (proj2 (terminal_restored_once [Save 0 7]))
           1%nat 2%nat None None 0 7); [discriminate | reflexivity | reflexivity].
Defined.

End Terminal.

(** * Further edge cases of the request/parse/normalise cycle *)
Module GatewayEdges.

(** The array field holds a non-empty object: [len] succeeds, [arr[0]] raises
    [KeyError(0)], and the handler reports it as a fetch failure. *)
Lemma handle_response_object_array field pre code d kvs log :
  200 <= code < 300 ->
  dict_lookup d "status" = Some (PStr "1") ->
  dict_lookup d field = Some (PDict kvs) -> kvs <> [] ->
  handle_response field pre (Response code (Decoded (PDict d))) log
  = (log, Ret (PDict [("error", PStr (pre ++ "0"))])).
Proof.
  intros Hc Hs Hf Hk; py_unfold; rewrite (is_2xx _ Hc); simpl.
  rewrite Hs; simpl; rewrite Hf; simpl.
  destruct kvs as [|kv kvs]; [congruence|]; simpl; reflexivity.
Qed.

(** The array field holds a non-empty string: [arr[0]] is its first
    character (code point), returned as the "record". *)
Lemma handle_response_string_array field pre code d c rest log :
  200 <= code < 300 ->
  dict_lookup d "status" = Some (PStr "1") ->
  dict_lookup d field = Some (PStr (String c rest)) ->
  handle_response field pre (Response code (Decoded (PDict d))) log
  = (log, Ret (PStr (str_first (String c rest)))).
Proof.
  intros Hc Hs Hf; py_unfold; rewrite (is_2xx _ Hc); simpl.
  rewrite Hs; simpl; rewrite Hf; simpl; reflexivity.
Qed.

(** X15: a successful (2xx, status "1") answer whose lives or forecasts field
    is a non-empty object instead of an array is reported as a failed fetch,
    with cause "0" (the [KeyError] of [arr[0]]) and no raw_response. *)
Theorem gateway_object_array upstream self city code d kvs :
  200 <= code < 300 -> dict_lookup d "status" = Some (PStr "1") -> kvs <> [] ->
  (dict_lookup d "lives" = Some (PDict kvs) ->
   upstream (weather_request self city "base") = Response code (Decoded (PDict d)) ->
   snd (run (get_weather_live upstream self city))
   = Ret (PDict [("error", PStr (MSG_LIVE_FAILED ++ "0"))]))
  /\ (dict_lookup d "forecasts" = Some (PDict kvs) ->
      upstream (weather_request self city "all") = Response code (Decoded (PDict d)) ->
      snd (run (get_weather_forecast upstream self city))
      = Ret (PDict [("error", PStr (MSG_FORECAST_FAILED ++ "0"))])).
Proof.
  intros Hc Hs Hk; split; intros Hf Hu.
  - rewrite get_weather_live_query, run_weather_query, Hu.
    rewrite (handle_response_object_array _ _ _ _ _ _ Hc Hs Hf Hk); reflexivity.
  - rewrite get_weather_forecast_query, run_weather_query, Hu.
    rewrite (handle_response_object_array _ _ _ _ _ _ Hc Hs Hf Hk); reflexivity.
Qed.

Definition odd_fields : list (string * pyval) :=
  [("status", PStr "1"); ("lives", PDict [("x", PInt 1)]); ("forecasts", PStr "晴天")].

Definition odd_body : pyval := PDict odd_fields.

Lemma gateway_object_array_witness :
  let upstream := fun _ : request => Response 200 (Decoded odd_body) in
  (200 <= 200 < 300 /\ dict_lookup odd_fields "status" = Some (PStr "1")
   /\ [("x", PInt 1)] <> [])
  /\ snd (run (get_weather_live upstream test_api "110000"))
     = Ret (PDict [("error", PStr (MSG_LIVE_FAILED ++ "0"))]).
Proof.
  intros upstream.
  assert (Hc : 200 <= 200 < 300) by lia.
  assert (Hk : [("x", PInt 1)] <> []) by discriminate.
  split; [split; [exact Hc | split; [reflexivity | exact Hk]]|].
  apply (proj1 (gateway_object_array upstream test_api "110000" 200 odd_fields _ Hc eq_refl Hk));
    reflexivity.
Defined.

(** X16: a successful answer whose lives or forecasts field is a non-empty
    string yields that string's first character as the result: neither an
    object nor an error. *)
Theorem gateway_string_array upstream self city code d c rest :
  200 <= code < 300 -> dict_lookup d "status" = Some (PStr "1") ->
  (dict_lookup d "lives" = Some (PStr (String c rest)) ->
   upstream (weather_request self city "base") = Response code (Decoded (PDict d)) ->
   snd (run (get_weather_live upstream self city)) = Ret (PStr (str_first (String c rest))))
  /\ (dict_lookup d "forecasts" = Some (PStr (String c rest)) ->
      upstream (weather_request self city "all") = Response code (Decoded (PDict d)) ->
      snd (run (get_weather_forecast upstream self city)) = Ret (PStr (str_first (String c rest)))).
Proof.
  intros Hc Hs; split; intros Hf Hu.
  - rewrite get_weather_live_query, run_weather_query, Hu.
    rewrite (handle_response_string_array _ _ _ _ _ _ _ Hc Hs Hf); reflexivity.
  - rewrite get_weather_forecast_query, run_weather_query, Hu.
    rewrite (handle_response_string_array _ _ _ _ _ _ _ Hc Hs Hf); reflexivity.
Qed.

Lemma gateway_string_array_witness :
  let upstream := fun _ : request => Response 200 (Decoded odd_body) in
  (200 <= 200 < 300 /\ dict_lookup odd_fields "status" = Some (PStr "1"))
  /\ snd (run (get_weather_forecast upstream test_api "110000")) = Ret (PStr "晴").
Proof.
  intros upstream.
  assert (Hc : 200 <= 200 < 300) by lia.
  split; [split; [exact Hc | reflexivity]|].
  apply (proj2 (gateway_string_array upstream test_api "110000" 200 odd_fields
                  (Ascii.ascii_of_nat 230)
                  (match "晴天" with String _ r => r | EmptyString => EmptyString end) Hc eq_refl));
    reflexivity.
Defined.

End GatewayEdges.
